(** * Baby-cry analysis pipeline: a shallow embedding of the audio core

    The development follows the four source files of the analysis core:

    - [app/audio/cry_detector.py]      (module [cry_detector])
    - [app/audio/cry_unit_detector.py] (module [cry_unit_detector])
    - [app/audio/acoustic_analyzer.py] (module [acoustic_analyzer])
    - [app/tasks/analysis_tasks.py]    (module [analysis_tasks])

    Numbers.  Times, energies and confidences of the two detectors are
    modelled as rationals ([Q]): what is proved about them are order facts
    and identities that hold by construction, and those carry over to the
    binary64 values the program computes.  The percentages of
    [compute_special_parameters] are rounded to two decimals and compared
    for exact equality, which does depend on binary64 rounding; that
    function is therefore modelled on Rocq's primitive binary64 floats.

    External libraries.  librosa, scipy and numpy's signal routines are not
    part of the repository.  Where a function of the repository calls one,
    the call is a field of the record [SignalLib] and the theorems hold for
    every implementation; a reference implementation is used to run the
    code on concrete inputs. *)

From Stdlib Require Import String DecimalString.
From Stdlib Require Import ZArith QArith Qabs Qround Lqa Lia List Bool Sorted.
From Stdlib Require Import Floats Uint63.
Import ListNotations.

Set Implicit Arguments.
Set Warnings "-abstract-large-number".

(* ================================================================== *)
(** ** Python and numpy primitives on rationals *)
(* ================================================================== *)

Module Py.

Open Scope Q_scope.

(** [a < b] on numbers, as a boolean. *)
Definition Qltb (a b : Q) : bool := negb (Qle_bool b a).

(** Python's [min(a, b)]: the first argument unless the second is smaller. *)
Definition min (a b : Q) : Q := if Qltb b a then b else a.

(** Python's [sum] and [np.sum]. *)
Definition sum (l : list Q) : Q := fold_left Qplus l 0.

(** A count as a number. *)
Definition of_nat (n : nat) : Q := inject_Z (Z.of_nat n).

(** [len(l)] as a number. *)
Definition len {A} (l : list A) : Q := of_nat (length l).

(** [np.mean]: the sum over the length. *)
Definition np_mean (l : list Q) : Q := sum l / len l.

(** [int(x)] on a float: truncation towards zero. *)
Definition int (x : Q) : Z := Z.quot (Qnum x) (Zpos (Qden x)).

(** [l[a:b]] with Python's rules: a negative index counts from the end,
    and both bounds are clamped to the list. *)
Definition clamp_index (n : Z) (i : Z) : Z :=
  if (i <? 0)%Z then Z.max 0 (n + i) else Z.min i n.

Definition slice {A} (l : list A) (a b : Z) : list A :=
  let n := Z.of_nat (length l) in
  let a' := clamp_index n a in
  let b' := clamp_index n b in
  firstn (Z.to_nat (b' - a')) (skipn (Z.to_nat a') l).

(** [enumerate(l)]. *)
Definition enumerate {A} (l : list A) : list (nat * A) :=
  combine (seq 0 (length l)) l.

(** [np.argmax]: the first index of the largest element. *)
Fixpoint argmax_from (l : list Q) (i : nat) (best_i : nat) (best : Q) : nat :=
  match l with
  | [] => best_i
  | x :: l' => if Qltb best x then argmax_from l' (S i) i x
               else argmax_from l' (S i) best_i best
  end.

Definition np_argmax (l : list Q) : nat :=
  match l with
  | [] => 0%nat
  | x :: l' => argmax_from l' 1 0 x
  end.

(** [sorted(l, key=...)]: a stable sort.  Insertion sort is the stable sort
    that is easiest to reason about, and every stable sort returns the same
    list. *)
Section Sorted.
Context {A : Type} (key : A -> Q).

Fixpoint insert (x : A) (l : list A) : list A :=
  match l with
  | [] => [x]
  | y :: l' => if Qle_bool (key x) (key y) then x :: y :: l'
               else y :: insert x l'
  end.

Definition sorted (l : list A) : list A := fold_right insert [] l.
End Sorted.

(** The signal-processing calls the two detectors make into librosa, scipy
    and numpy, on a waveform (or an envelope) given as a list of samples. *)
Record SignalLib : Type := mkSignalLib {
  (* librosa.feature.rms(y=y, hop_length=512)[0] *)
  librosa_rms : list Q -> list Q;
  (* librosa.feature.spectral_centroid(y=y, sr=sr, hop_length=512)[0] *)
  librosa_spectral_centroid : Q -> list Q -> list Q;
  (* librosa.feature.zero_crossing_rate(audio)[0] *)
  librosa_zero_crossing_rate : list Q -> list Q;
  (* scipy.signal.savgol_filter(energy, 5, 2) *)
  savgol_filter_5_2 : list Q -> list Q;
  (* np.sqrt *)
  np_sqrt : Q -> Q;
  (* np.abs(np.fft.rfft(audio)) *)
  rfft_magnitude : list Q -> list Q
}.

End Py.

(* ================================================================== *)
(** ** app/audio/cry_detector.py *)
(* ================================================================== *)

Module cry_detector.

Import Py.
Open Scope Q_scope.

(** [@dataclass class CryEpisode]. *)
Record CryEpisode : Type := mkCryEpisode {
  start_time : Q;
  end_time   : Q;
  duration   : Q;
  confidence : Q
}.

(** The fields [CryDetector.__init__] stores. *)
Record CryDetector : Type := mkCryDetector {
  sr               : Q;
  chunk_duration   : Q;
  energy_threshold : Q;
  min_duration     : Q;
  max_gap          : Q;
  freq_min         : Q;
  freq_max         : Q
}.

(** [CryDetector()], the constructor's default arguments. *)
Definition default : CryDetector :=
  {| sr := 22050; chunk_duration := 60; energy_threshold := 0.02;
     min_duration := 0.5; max_gap := 1.0; freq_min := 200;
     freq_max := 5000 |}.

(** A segment is the tuple [(start_time, end_time, confidence)]. *)
Definition Segment : Type := (Q * Q * Q)%type.

Definition seg_start (s : Segment) : Q := fst (fst s).
Definition seg_end (s : Segment) : Q := snd (fst s).
Definition seg_conf (s : Segment) : Q := snd s.

(** The local variables of the frame loop of [_detect_cry_segments]. *)
Record LoopState : Type := mkLoopState {
  in_segment         : bool;
  segment_start      : nat;
  segment_energy_sum : Q;
  segment_frames     : nat;
  segments           : list Segment
}.

Definition initial_state : LoopState :=
  {| in_segment := false; segment_start := 0; segment_energy_sum := 0;
     segment_frames := 0; segments := [] |}.

Definition hop_length : Q := 512.

Section Detector.
Variable lib : SignalLib.
Variable self : CryDetector.

(** [_is_cry_frame]: elementwise on the two feature arrays. *)
Definition _is_cry_frame (energy spectral_centroid : list Q) : list bool :=
  map (fun ec : Q * Q =>
         let energy_condition := Qltb (energy_threshold self) (fst ec) in
         let freq_condition :=
           Qle_bool (freq_min self) (snd ec)
           && Qle_bool (snd ec) (freq_max self) in
         energy_condition && freq_condition)
      (combine energy spectral_centroid).

Definition frame_duration : Q := hop_length / sr self.

(** The segment that ends at frame [i] (exclusive), appended only when it
    lasts at least [min_duration]. *)
Definition close_segment (time_offset : Q) (st : LoopState) (i : nat)
  : list Segment :=
  let segment_duration := of_nat (segment_frames st) * frame_duration in
  if Qle_bool (min_duration self) segment_duration then
    let start_time := time_offset + of_nat (segment_start st) * frame_duration in
    let end_time := time_offset + of_nat i * frame_duration in
    let confidence :=
      min (segment_energy_sum st / of_nat (segment_frames st)
           / energy_threshold self) 1.0 in
    segments st ++ [(start_time, end_time, confidence)]
  else segments st.

(** One iteration of [for i, cry in enumerate(is_cry)]. *)
Definition step (energy : list Q) (time_offset : Q)
           (st : LoopState) (ic : nat * bool) : LoopState :=
  let (i, cry) := ic in
  if cry && negb (in_segment st) then
    {| in_segment := true; segment_start := i;
       segment_energy_sum := nth i energy 0; segment_frames := 1;
       segments := segments st |}
  else if cry && in_segment st then
    {| in_segment := true; segment_start := segment_start st;
       segment_energy_sum := segment_energy_sum st + nth i energy 0;
       segment_frames := S (segment_frames st);
       segments := segments st |}
  else if negb cry && in_segment st then
    {| in_segment := false; segment_start := segment_start st;
       segment_energy_sum := segment_energy_sum st;
       segment_frames := segment_frames st;
       segments := close_segment time_offset st i |}
  else st.

(** [_detect_cry_segments(y, time_offset)]. *)
Definition _detect_cry_segments (y : list Q) (time_offset : Q)
  : list Segment :=
  let energy := librosa_rms lib y in
  let spectral_centroid := librosa_spectral_centroid lib (sr self) y in
  let is_cry := _is_cry_frame energy spectral_centroid in
  let st := fold_left (step energy time_offset) (enumerate is_cry)
                      initial_state in
  if in_segment st then close_segment time_offset st (length is_cry)
  else segments st.

(** The loop of [_merge_segments_to_episodes] over [segments[1:]]. *)
Fixpoint merge_loop (segs : list Segment) (episodes : list CryEpisode)
         (current_start current_end : Q) (confidences : list Q)
  : list CryEpisode :=
  match segs with
  | [] =>
      episodes ++ [ {| start_time := current_start;
                       end_time := current_end;
                       duration := current_end - current_start;
                       confidence := np_mean confidences |} ]
  | (start, end_, confidence) :: rest =>
      let gap := start - current_end in
      if Qle_bool gap (max_gap self) then
        merge_loop rest episodes current_start end_
                   (confidences ++ [confidence])
      else
        let episode := {| start_time := current_start;
                          end_time := current_end;
                          duration := current_end - current_start;
                          confidence := np_mean confidences |} in
        merge_loop rest (episodes ++ [episode]) start end_ [confidence]
  end.

Definition _merge_segments_to_episodes (segments : list Segment)
  : list CryEpisode :=
  match sorted seg_start segments with
  | [] => []
  | (s0, e0, c0) :: rest => merge_loop rest [] s0 e0 [c0]
  end.

(** [detect_from_file].  The file is given by the waveforms [librosa.load]
    returns for the offsets [0, chunk_duration, 2 * chunk_duration, ...] of
    [np.arange(0, duration, chunk_duration)], in that order. *)
Definition detect_from_file (chunks : list (list Q)) : list CryEpisode :=
  let all_segments :=
    flat_map (fun ky : nat * list Q =>
                let offset := of_nat (fst ky) * chunk_duration self in
                _detect_cry_segments (snd ky) offset)
             (enumerate chunks) in
  _merge_segments_to_episodes all_segments.

End Detector.

End cry_detector.

(* ================================================================== *)
(** ** app/audio/cry_unit_detector.py *)
(* ================================================================== *)

Module cry_unit_detector.

Import Py.
Open Scope Q_scope.

(** [@dataclass class CryUnit]. *)
Record CryUnit : Type := mkCryUnit {
  start_time     : Q;
  end_time       : Q;
  duration       : Q;
  is_voiced      : bool;
  mean_energy    : Q;
  peak_frequency : Q
}.

(** The fields [CryUnitDetector.__init__] stores. *)
Record CryUnitDetector : Type := mkCryUnitDetector {
  sr                   : Q;
  silence_threshold    : Q;
  min_unit_duration    : Q;
  min_silence_duration : Q;
  voiced_threshold     : Q
}.

(** [CryUnitDetector()], the constructor's default arguments. *)
Definition default : CryUnitDetector :=
  {| sr := 22050; silence_threshold := 0.01; min_unit_duration := 0.1;
     min_silence_duration := 0.05; voiced_threshold := 0.3 |}.

(** The local variables of the loop of [_find_silence_segments]. *)
Record SilenceState : Type := mkSilenceState {
  in_silence    : bool;
  silence_start : nat;
  segments      : list (Q * Q)
}.

Section Detector.
Variable lib : SignalLib.
Variable self : CryUnitDetector.

(** The silence run [silence_start, i), appended only when it lasts at
    least [min_silence_duration]. *)
Definition close_silence (frame_duration : Q) (st : SilenceState) (i : nat)
  : list (Q * Q) :=
  let silence_duration :=
    (of_nat i - of_nat (silence_start st)) * frame_duration in
  if Qle_bool (min_silence_duration self) silence_duration then
    let start_time := of_nat (silence_start st) * frame_duration in
    let end_time := of_nat i * frame_duration in
    segments st ++ [(start_time, end_time)]
  else segments st.

(** One iteration of [for i, is_silence in enumerate(silence_frames)]. *)
Definition silence_step (frame_duration : Q) (st : SilenceState)
           (ib : nat * bool) : SilenceState :=
  let (i, is_silence) := ib in
  if is_silence && negb (in_silence st) then
    {| in_silence := true; silence_start := i; segments := segments st |}
  else if negb is_silence && in_silence st then
    {| in_silence := false; silence_start := silence_start st;
       segments := close_silence frame_duration st i |}
  else st.

Definition _find_silence_segments (silence_frames : list bool)
           (frame_duration : Q) : list (Q * Q) :=
  let st := fold_left (silence_step frame_duration)
                      (enumerate silence_frames)
                      {| in_silence := false; silence_start := 0;
                         segments := [] |} in
  if in_silence st then
    close_silence frame_duration st (length silence_frames)
  else segments st.

(** The loop of [_determine_unit_boundaries] over the silence segments. *)
Fixpoint boundaries_loop (silence_segments : list (Q * Q))
         (boundaries : list (Q * Q)) (current_start total_duration : Q)
  : list (Q * Q) :=
  match silence_segments with
  | [] =>
      if Qltb current_start total_duration then
        boundaries ++ [(current_start, total_duration)]
      else boundaries
  | (silence_start, silence_end) :: rest =>
      let boundaries :=
        if Qltb current_start silence_start then
          boundaries ++ [(current_start, silence_start)]
        else boundaries in
      boundaries_loop rest boundaries silence_end total_duration
  end.

Definition _determine_unit_boundaries (silence_segments : list (Q * Q))
           (total_duration : Q) : list (Q * Q) :=
  match silence_segments with
  | [] => [(0.0, total_duration)]
  | _ => boundaries_loop silence_segments [] 0.0 total_duration
  end.

Definition _classify_voicing (audio : list Q) : bool :=
  if Qltb (len audio) (sr self * 0.02) then false
  else
    let zcr := librosa_zero_crossing_rate lib audio in
    let mean_zcr := np_mean zcr in
    let is_voiced := Qltb mean_zcr 0.1 in
    let energy := np_sqrt lib (np_mean (map (fun x => x * x) audio)) in
    if Qltb energy 0.01 then false else is_voiced.

Definition _estimate_peak_frequency (audio : list Q) : Q :=
  if Qltb (len audio) 512 then 0.0
  else
    let magnitude := rfft_magnitude lib audio in
    let peak_idx := np_argmax magnitude in
    of_nat peak_idx * sr self / (2 * len magnitude).

(** The body of [for i, (unit_start, unit_end) in enumerate(unit_boundaries)]:
    the units appended in one iteration (none after a [continue]). *)
Definition unit_of_boundary (episode_audio energy : list Q)
           (episode_start_time frame_duration : Q) (b : Q * Q)
  : list CryUnit :=
  let (unit_start, unit_end) := b in
  let abs_start := episode_start_time + unit_start in
  let abs_end := episode_start_time + unit_end in
  if Qltb (abs_end - abs_start) (min_unit_duration self) then []
  else
    let unit_start_sample := int (unit_start * sr self) in
    let unit_end_sample := int (unit_end * sr self) in
    let unit_audio := slice episode_audio unit_start_sample unit_end_sample in
    if (length unit_audio =? 0)%nat then []
    else
      let is_voiced := _classify_voicing unit_audio in
      let unit_energy_frames :=
        slice energy (int (unit_start / frame_duration))
                     (int (unit_end / frame_duration)) in
      let mean_energy :=
        if (0 <? length unit_energy_frames)%nat
        then np_mean unit_energy_frames else 0.0 in
      let peak_freq := _estimate_peak_frequency unit_audio in
      [ {| start_time := abs_start; end_time := abs_end;
           duration := abs_end - abs_start; is_voiced := is_voiced;
           mean_energy := mean_energy; peak_frequency := peak_freq |} ].

Definition detect_units_in_episode (y : list Q)
           (episode_start_time episode_end_time : Q) : list CryUnit :=
  let start_sample := int (episode_start_time * sr self) in
  let end_sample := int (episode_end_time * sr self) in
  let episode_audio := slice y start_sample end_sample in
  if (length episode_audio =? 0)%nat then []
  else
    let hop_length := 512 in
    let frame_duration := hop_length / sr self in
    let energy := librosa_rms lib episode_audio in
    let window_length := 5%nat in
    let energy :=
      if (window_length <=? length energy)%nat
      then savgol_filter_5_2 lib energy else energy in
    let silence_frames :=
      map (fun e => Qltb e (silence_threshold self)) energy in
    let silence_segments :=
      _find_silence_segments silence_frames frame_duration in
    let unit_boundaries :=
      _determine_unit_boundaries silence_segments
                                 (len energy * frame_duration) in
    flat_map (unit_of_boundary episode_audio energy episode_start_time
                               frame_duration)
             unit_boundaries.

(** [calculate_cry_unit_metrics]: the pair [(cryCE, unvoicedCE)]. *)
Definition calculate_cry_unit_metrics (units : list CryUnit) : Q * Q :=
  match units with
  | [] => (0.0, 0.0)
  | _ =>
      let voiced_units := filter (fun u => is_voiced u) units in
      let cryCE :=
        match voiced_units with
        | [] => 0.0
        | _ => np_mean (map duration voiced_units)
        end in
      let unvoiced_units := filter (fun u => negb (is_voiced u)) units in
      let unvoicedCE :=
        match unvoiced_units with
        | [] => 0.0
        | _ => sum (map duration unvoiced_units)
        end in
      (cryCE, unvoicedCE)
  end.

End Detector.

End cry_unit_detector.

(* ================================================================== *)
(** ** Python floats (binary64) *)
(* ================================================================== *)

Module PyFloat.

Open Scope float_scope.

(** A Python [int] below [2^53] as a float (exact). *)
Definition of_Z (z : Z) : float := PrimFloat.of_uint63 (Uint63.of_Z z).

Definition of_nat (n : nat) : float := of_Z (Z.of_nat n).

(** [a / b] on two Python ints ([long_true_divide]): [0.0] for a zero
    numerator, and otherwise, both being below [2^53], the quotient of the
    two ints as floats. *)
Definition true_div (a b : nat) : float :=
  match a with
  | O => 0
  | _ => of_nat a / of_nat b
  end.

(** The integer nearest to [n * 2^e], ties to the even one. *)
Definition round_half_even (n e : Z) : Z :=
  if (0 <=? e)%Z then (n * 2 ^ e)%Z
  else
    let d := (2 ^ (- e))%Z in
    let q := (n / d)%Z in
    let r := (n mod d)%Z in
    if (2 * r <? d)%Z then q
    else if (d <? 2 * r)%Z then (q + 1)%Z
    else if Z.even q then q else (q + 1)%Z.

(** [round(x, 2)] ([float.__round__] with [ndigits = 2]): the exact value of
    [x] is rounded to two decimals, ties to even, and the float nearest to
    that decimal is returned; since [k] and [100] are floats, the nearest
    float to [k / 100] is their float quotient.  Zeros, infinities and NaN
    round to themselves, and so does every float from [2^53 / 100] on. *)
Definition round2 (x : float) : float :=
  match Prim2SF x with
  | S754_finite s m e =>
      let k := round_half_even (Zpos m * 100) e in
      if (k <? 2 ^ 53)%Z then
        let r := of_Z k / 100 in
        if s then - r else r
      else x
  | _ => x
  end.

(** The numpy reductions [compute_statistics] calls on a list of floats. *)
Record Numpy : Type := mkNumpy {
  np_mean   : list float -> float;
  np_std    : list float -> float;
  np_min    : list float -> float;
  np_max    : list float -> float;
  np_median : list float -> float
}.

End PyFloat.

(* ================================================================== *)
(** ** Python dicts with string keys *)
(* ================================================================== *)

Module PyDict.

Open Scope string_scope.

(** A dict, in insertion order. *)
Definition Dict (V : Type) : Type := list (string * V).

(** [d.get(key)]: [None] for a missing key. *)
Fixpoint get {V} (d : Dict V) (key : string) : option V :=
  match d with
  | [] => None
  | (k, v) :: d' => if String.eqb k key then Some v else get d' key
  end.

(** [d[key] = v]. *)
Fixpoint set {V} (d : Dict V) (key : string) (v : V) : Dict V :=
  match d with
  | [] => [(key, v)]
  | (k, v') :: d' => if String.eqb k key then (k, v) :: d'
                     else (k, v') :: set d' key v
  end.

(** [str(n)] for a non-negative int. *)
Definition str (n : nat) : string := NilEmpty.string_of_uint (Nat.to_uint n).

End PyDict.

(* ================================================================== *)
(** ** app/audio/acoustic_analyzer.py *)
(* ================================================================== *)

Module acoustic_analyzer.

Import PyFloat PyDict.
Open Scope string_scope.
Open Scope float_scope.

(** [@dataclass class AcousticFeatures]: every measure but [time] is
    [Optional[float]]. *)
Record AcousticFeatures : Type := mkAcousticFeatures {
  time      : float;
  f0        : option float;
  f1        : option float;
  f2        : option float;
  f3        : option float;
  hnr       : option float;
  shimmer   : option float;
  jitter    : option float;
  intensity : option float
}.

(** The inner dict of [compute_statistics]; [None] is JSON's null. *)
Record Statistics : Type := mkStatistics {
  mean   : option float;
  std    : option float;
  min    : option float;
  max    : option float;
  median : option float
}.

(** [params], each with what [getattr(f, param)] reads. *)
Definition params : list (string * (AcousticFeatures -> option float)) :=
  [ ("f0", f0); ("f1", f1); ("f2", f2); ("f3", f3); ("hnr", hnr);
    ("shimmer", shimmer); ("jitter", jitter); ("intensity", intensity) ].

(** [[getattr(f, param) for f in features_list
      if getattr(f, param) is not None]]. *)
Definition values_of (getattr : AcousticFeatures -> option float)
           (features_list : list AcousticFeatures) : list float :=
  flat_map (fun f => match getattr f with
                     | Some v => [v]
                     | None => []
                     end) features_list.

Definition statistics_of (np : Numpy) (values : list float) : Statistics :=
  match values with
  | [] => {| mean := None; std := None; min := None; max := None;
             median := None |}
  | _ => {| mean := Some (np_mean np values);
            std := Some (np_std np values);
            min := Some (np_min np values);
            max := Some (np_max np values);
            median := Some (np_median np values) |}
  end.

Definition compute_statistics (np : Numpy)
           (features_list : list AcousticFeatures) : Dict Statistics :=
  map (fun pg : string * (AcousticFeatures -> option float) =>
         let (param, getattr) := pg in
         (param, statistics_of np (values_of getattr features_list)))
      params.

(** The dict [compute_special_parameters] returns. *)
Record SpecialParameters : Type := mkSpecialParameters {
  high_pitch_pct      : float;
  hyper_phonation_pct : float;
  voiced_pct          : float;
  unvoiced_pct        : float
}.

(** [sum(1 for f in features_list if cond(f))]. *)
Definition count (cond : AcousticFeatures -> bool)
           (features_list : list AcousticFeatures) : nat :=
  length (filter cond features_list).

Definition is_high_pitch (high_pitch_threshold : float)
           (f : AcousticFeatures) : bool :=
  match f0 f with
  | Some v => high_pitch_threshold <? v
  | None => false
  end.

Definition is_hyper_phonation (f : AcousticFeatures) : bool :=
  match hnr f, shimmer f, jitter f with
  | Some h, Some s, Some j => (h <? 10) && (5 <? s) && (1 <? j)
  | _, _, _ => false
  end.

Definition is_voiced_frame (f : AcousticFeatures) : bool :=
  match f0 f with
  | Some _ => true
  | None => false
  end.

Definition compute_special_parameters
           (features_list : list AcousticFeatures)
           (high_pitch_threshold : float) : SpecialParameters :=
  let total_frames := length features_list in
  match total_frames with
  | O => {| high_pitch_pct := 0; hyper_phonation_pct := 0;
            voiced_pct := 0; unvoiced_pct := 0 |}
  | _ =>
      let high_pitch_count :=
        count (is_high_pitch high_pitch_threshold) features_list in
      let high_pitch_pct := true_div high_pitch_count total_frames * 100 in
      let hyper_phonation_count := count is_hyper_phonation features_list in
      let hyper_phonation_pct :=
        true_div hyper_phonation_count total_frames * 100 in
      let voiced_count := count is_voiced_frame features_list in
      let unvoiced_count := (total_frames - voiced_count)%nat in
      let voiced_pct := true_div voiced_count total_frames * 100 in
      let unvoiced_pct := true_div unvoiced_count total_frames * 100 in
      {| high_pitch_pct := round2 high_pitch_pct;
         hyper_phonation_pct := round2 hyper_phonation_pct;
         voiced_pct := round2 voiced_pct;
         unvoiced_pct := round2 unvoiced_pct |}
  end.

(** The default [high_pitch_threshold = 500.0]. *)
Definition default_high_pitch_threshold : float := 500.

End acoustic_analyzer.

(* ================================================================== *)
(** ** app/tasks/analysis_tasks.py *)
(* ================================================================== *)

Module analysis_tasks.

Import Py PyDict.
Open Scope string_scope.
Open Scope Q_scope.

Inductive Exception : Type :=
| ValueError (msg : string)
| Error (kind msg : string).

(** What a call does: it returns a value or raises. *)
Inductive Result (A : Type) : Type :=
| Ok (a : A)
| Raise (e : Exception).

Arguments Ok {A} a.
Arguments Raise {A} e.

(** The rows of the two tables the task touches. *)
Record AudioFile : Type := mkAudioFile {
  id        : Z;
  file_path : string;
  status    : string
}.

(** [result_data] and its nested dicts. *)
Record EpisodeStatistics : Type := mkEpisodeStatistics {
  statistics_     : Dict acoustic_analyzer.Statistics;
  special_params  : acoustic_analyzer.SpecialParameters;
  cryCE_          : Q;
  unvoicedCE_     : Q;
  cry_unit_count  : nat
}.

Record EpisodeCryUnits : Type := mkEpisodeCryUnits {
  units      : list cry_unit_detector.CryUnit;
  unit_count : nat;
  cryCE      : Q;
  unvoicedCE : Q
}.

Record ResultData : Type := mkResultData {
  cry_episodes      : list cry_detector.CryEpisode;
  acoustic_features :
    Dict (list acoustic_analyzer.AcousticFeatures);
  statistics        : Dict EpisodeStatistics;
  cry_units         : Dict EpisodeCryUnits
}.

Record AnalysisResult : Type := mkAnalysisResult {
  result_id     : Z;
  audio_file_id : Z;
  result_data   : ResultData
}.

Record Tables : Type := mkTables {
  audio_files      : list AudioFile;
  analysis_results : list AnalysisResult
}.

(** The task's world: what the database holds (the committed rows), what
    the session holds (the rows with the changes not yet committed), and
    the [update_state] calls made so far, oldest first. *)
Record World : Type := mkWorld {
  database : Tables;
  session  : Tables;
  progress : list (Z * string)
}.

(** The calls the task makes into the three analysers and librosa.  Each
    returns or raises; [analyze_segment] also makes its [progress_callback]
    calls [(step, message)] before it does. *)
Record Analysers : Type := mkAnalysers {
  detect_from_file : string -> Result (list cry_detector.CryEpisode);
  librosa_load : string -> Result (list Q);
  analyze_segment :
    string -> Q -> Q ->
    list (Q * string) * Result (list acoustic_analyzer.AcousticFeatures);
  compute_statistics :
    list acoustic_analyzer.AcousticFeatures ->
    Result (Dict acoustic_analyzer.Statistics);
  compute_special_parameters :
    list acoustic_analyzer.AcousticFeatures ->
    Result acoustic_analyzer.SpecialParameters;
  detect_units_in_episode :
    list Q -> Q -> Q -> Result (list cry_unit_detector.CryUnit);
  calculate_cry_unit_metrics :
    list cry_unit_detector.CryUnit -> Result (Q * Q)
}.

(** Computations of the task: the world is threaded through, and a raised
    exception ends the computation with the world as it was then. *)
Definition M (A : Type) : Type := World -> Result A * World.

Definition ret {A} (a : A) : M A := fun w => (Ok a, w).

Definition raise {A} (e : Exception) : M A := fun w => (Raise e, w).

Definition bind {A B} (m : M A) (k : A -> M B) : M B :=
  fun w => match m w with
           | (Ok a, w') => k a w'
           | (Raise e, w') => (Raise e, w')
           end.

Notation "x <- m ;; k" := (bind m (fun x => k))
  (at level 61, m at next level, right associativity).
Notation "m ;;; k" := (bind m (fun _ => k))
  (at level 61, right associativity).

(** [try: body except Exception as e: handler(e)]. *)
Definition try_except {A} (body : M A) (handler : Exception -> M A) : M A :=
  fun w => match body w with
           | (Ok a, w') => (Ok a, w')
           | (Raise e, w') => handler e w'
           end.

(** A call that touches nothing of the world. *)
Definition call {A} (r : Result A) : M A := fun w => (r, w).

(** [self.db.query(AudioFile).filter(AudioFile.id == file_id).first()]. *)
Definition query_first (file_id : Z) : M (option AudioFile) :=
  fun w => (Ok (find (fun f => (id f =? file_id)%Z) (audio_files (session w))),
            w).

(** [audio_file.status = s] on the row the session holds. *)
Definition set_status (file_id : Z) (s : string) : M unit :=
  fun w =>
    let files :=
      map (fun f => if (id f =? file_id)%Z
                    then {| id := id f; file_path := file_path f; status := s |}
                    else f)
          (audio_files (session w)) in
    (Ok tt,
     {| database := database w;
        session := {| audio_files := files;
                      analysis_results := analysis_results (session w) |};
        progress := progress w |}).

(** [self.db.add(AnalysisResult(audio_file_id=..., result_data=...))]; the
    row's id is the next one of the table. *)
Definition db_add (file_id : Z) (data : ResultData) : M AnalysisResult :=
  fun w =>
    let row := {| result_id :=
                    Z.of_nat (length (analysis_results (session w))) + 1;
                  audio_file_id := file_id; result_data := data |} in
    (Ok row,
     {| database := database w;
        session := {| audio_files := audio_files (session w);
                      analysis_results :=
                        analysis_results (session w) ++ [row] |};
        progress := progress w |}).

(** [self.db.commit()]. *)
Definition db_commit : M unit :=
  fun w => (Ok tt, {| database := session w; session := session w;
                      progress := progress w |}).

(** [self.update_state(state='PROGRESS', meta={'progress': p,
    'message': msg})]. *)
Definition update_state (p : Z) (msg : string) : M unit :=
  fun w => (Ok tt, {| database := database w; session := session w;
                      progress := progress w ++ [(p, msg)] |}).

(** The three dicts the episode loop fills. *)
Record Episodes : Type := mkEpisodes {
  episodes_features   : Dict (list acoustic_analyzer.AcousticFeatures);
  episodes_statistics : Dict EpisodeStatistics;
  episodes_cry_units  : Dict EpisodeCryUnits
}.

Section Task.
Variable an : Analysers.
Variable file_id : Z.

(** The body of [for i, episode in enumerate(cry_episodes)]; [acc] holds
    the three dicts as the iterations before left them. *)
Definition analyze_episode (audio_file : AudioFile) (y_full : list Q)
           (total_episodes i : nat) (episode : cry_detector.CryEpisode)
           (acc : Episodes) : M Episodes :=
  let segment_id := "episode_" ++ str i in
  let base_progress :=
    (50 + int (of_nat i / of_nat (Nat.max total_episodes 1) * 30))%Z in
  let step_size := int (30 / of_nat (Nat.max total_episodes 1) / 15) in
  let label := "Episode " ++ str (i + 1) ++ "/" ++ str total_episodes ++ ": " in
  let acoustic_progress_callback (sm : Q * string) : M unit :=
    update_state (base_progress + int (fst sm * inject_Z step_size))%Z
                 (label ++ snd sm) in
  let (callbacks, features_or_error) :=
    analyze_segment an (file_path audio_file)
                    (cry_detector.start_time episode)
                    (cry_detector.end_time episode) in
  fold_right (fun sm k => acoustic_progress_callback sm ;;; k) (ret tt)
             callbacks ;;;
  features <- call features_or_error ;;
  let episodes_features' :=
    set (episodes_features acc) segment_id features in
  update_state (base_progress + step_size * 11)%Z
               (label ++ "Computing statistics") ;;;
  statistics <- call (compute_statistics an features) ;;
  update_state (base_progress + step_size * 12)%Z
               (label ++ "Computing special parameters") ;;;
  special_params <- call (compute_special_parameters an features) ;;
  update_state (base_progress + step_size * 13)%Z
               (label ++ "Detecting cry units") ;;;
  cry_units <- call (detect_units_in_episode an y_full
                       (cry_detector.start_time episode)
                       (cry_detector.end_time episode)) ;;
  update_state (base_progress + step_size * 14)%Z
               (label ++ "Computing cry unit metrics") ;;;
  metrics <- call (calculate_cry_unit_metrics an cry_units) ;;
  let (cryCE, unvoicedCE) := metrics : Q * Q in
  let episodes_cry_units' :=
    set (episodes_cry_units acc) segment_id
        {| units := cry_units; unit_count := length cry_units;
           cryCE := cryCE; unvoicedCE := unvoicedCE |} in
  let episodes_statistics' :=
    set (episodes_statistics acc) segment_id
        {| statistics_ := statistics;
           special_params := special_params;
           cryCE_ := cryCE; unvoicedCE_ := unvoicedCE;
           cry_unit_count := length cry_units |} in
  ret {| episodes_features := episodes_features';
         episodes_statistics := episodes_statistics';
         episodes_cry_units := episodes_cry_units' |}.

Fixpoint episode_loop (audio_file : AudioFile) (y_full : list Q)
         (total_episodes i : nat) (episodes : list cry_detector.CryEpisode)
         (acc : Episodes) : M Episodes :=
  match episodes with
  | [] => ret acc
  | episode :: rest =>
      acc' <- analyze_episode audio_file y_full total_episodes i episode acc ;;
      episode_loop audio_file y_full total_episodes (S i) rest acc'
  end.

(** The [try] block of [analyze_audio_file]. *)
Definition try_block : M Z :=
  audio_file <- query_first file_id ;;
  match audio_file with
  | None =>
      raise (ValueError ("Audio file "
                         ++ NilEmpty.string_of_int (Z.to_int file_id)
                         ++ " not found"))
  | Some audio_file =>
      set_status file_id "processing" ;;;
      db_commit ;;;
      update_state 10 "File loaded" ;;;
      update_state 20 "Detecting cry episodes" ;;;
      cry_episodes <- call (detect_from_file an (file_path audio_file)) ;;
      update_state 40 ("Found " ++ str (length cry_episodes) ++ " episodes") ;;;
      update_state 50 "Loading audio for analysis" ;;;
      y_full <- call (librosa_load an (file_path audio_file)) ;;
      filled <- episode_loop audio_file y_full (length cry_episodes) 0
                             cry_episodes
                             {| episodes_features := [];
                                episodes_statistics := [];
                                episodes_cry_units := [] |} ;;
      update_state 85 "Saving results" ;;;
      analysis_result <-
        db_add file_id
               {| cry_episodes := cry_episodes;
                  acoustic_features := episodes_features filled;
                  statistics := episodes_statistics filled;
                  cry_units := episodes_cry_units filled |} ;;
      set_status file_id "completed" ;;;
      db_commit ;;;
      update_state 100 "Analysis completed" ;;;
      ret (result_id analysis_result)
  end.

(** The [except Exception as e] block. *)
Definition except_block (e : Exception) : M Z :=
  audio_file <- query_first file_id ;;
  match audio_file with
  | Some _ => set_status file_id "failed" ;;; db_commit
  | None => ret tt
  end ;;;
  raise e.

Definition analyze_audio_file : M Z := try_except try_block except_block.

End Task.

End analysis_tasks.

(* ================================================================== *)
(** ** A reference implementation of the signal library *)
(* ================================================================== *)

(** Used to run the detectors on concrete waveforms.  The frame layout is
    librosa's default ([frame_length = 2048], [hop_length = 512],
    [center = True]): a waveform of [n] samples has [1 + n // 512] frames.
    [np_sqrt] rounds down to a multiple of [1e-6 / den]; it is exact on the
    square of a rational.  [rfft_magnitude] and [librosa_spectral_centroid]
    need trigonometry: the first is exact on constant waveforms (all the
    energy in bin 0), the second is a stand-in of the right shape. *)
Module reference.

Import Py.
Open Scope Q_scope.

Definition frame_length : nat := 2048.
Definition hop : nat := 512.

Definition n_frames (y : list Q) : nat := 1 + length y / hop.

(** The [i]-th frame of the padded waveform. *)
Definition frame (padded : list Q) (i : nat) : list Q :=
  firstn frame_length (skipn (i * hop) padded).

Definition qsum (l : list Q) : Q :=
  fold_left (fun a x => Qred (a + x)) l 0.

Definition sqrt (q : Q) : Q :=
  let s := (10 ^ 6)%Z in
  Qred (Z.sqrt (Qnum q * Zpos (Qden q) * s * s) # (Qden q * Z.to_pos s)).

(** [pad_mode = 'constant']: zeros on both sides. *)
Definition rms (y : list Q) : list Q :=
  let padded := repeat 0 (frame_length / 2) ++ y ++ repeat 0 (frame_length / 2) in
  map (fun i => sqrt (qsum (map (fun x => x * x) (frame padded i))
                      / of_nat frame_length))
      (seq 0 (n_frames y)).

(** [mode = 'edge'] padding, then the share of sign changes in each frame
    (the first sample of a frame never counts: [pad = False]). *)
Fixpoint sign_changes (l : list Q) : nat :=
  match l with
  | a :: (b :: _) as l' =>
      (if Bool.eqb (Qltb a 0) (Qltb b 0) then 0 else 1) + sign_changes l'
  | _ => 0
  end.

Definition zero_crossing_rate (y : list Q) : list Q :=
  let padded := repeat (hd 0 y) (frame_length / 2) ++ y
                ++ repeat (last y 0) (frame_length / 2) in
  map (fun i => of_nat (sign_changes (frame padded i)) / of_nat frame_length)
      (seq 0 (n_frames y)).

(** [savgol_filter(x, 5, 2)] with [mode = 'interp']: the five-point
    quadratic least-squares fit, evaluated at the centre of each window and,
    for the first and the last two samples, at the ends of the first and the
    last window. *)
Definition at_ (x : list Q) (i : nat) : Q := nth i x 0.

Definition savgol (x : list Q) : list Q :=
  let n := length x in
  map (fun i =>
         if (i =? 0)%nat then
           (31 * at_ x 0 + 9 * at_ x 1 - 3 * at_ x 2 - 5 * at_ x 3
            + 3 * at_ x 4) / 35
         else if (i =? 1)%nat then
           (9 * at_ x 0 + 13 * at_ x 1 + 12 * at_ x 2 + 6 * at_ x 3
            - 5 * at_ x 4) / 35
         else if (i =? n - 2)%nat then
           (- 5 * at_ x (n - 5) + 6 * at_ x (n - 4) + 12 * at_ x (n - 3)
            + 13 * at_ x (n - 2) + 9 * at_ x (n - 1)) / 35
         else if (i =? n - 1)%nat then
           (3 * at_ x (n - 5) - 5 * at_ x (n - 4) - 3 * at_ x (n - 3)
            + 9 * at_ x (n - 2) + 31 * at_ x (n - 1)) / 35
         else
           (- 3 * at_ x (i - 2) + 12 * at_ x (i - 1) + 17 * at_ x i
            + 12 * at_ x (i + 1) - 3 * at_ x (i + 2)) / 35)
      (seq 0 n).

Definition magnitude_of_constant (y : list Q) : list Q :=
  Qabs (qsum y) :: repeat 0 (length y / 2).

Definition centroid_stand_in (sr : Q) (y : list Q) : list Q :=
  repeat 1000 (n_frames y).

Definition lib : SignalLib :=
  {| librosa_rms := rms;
     librosa_spectral_centroid := centroid_stand_in;
     librosa_zero_crossing_rate := zero_crossing_rate;
     savgol_filter_5_2 := fun x => if (5 <=? length x)%nat then savgol x else x;
     np_sqrt := sqrt;
     rfft_magnitude := magnitude_of_constant |}.

End reference.

(* ================================================================== *)
(** ** A reference implementation of the numpy reductions *)
(* ================================================================== *)

(** Sums run from left to right; numpy adds long arrays pairwise, which can
    change the last bits of a mean.  The theorems about
    [compute_statistics] hold for every implementation of [Numpy]. *)
Module reference_numpy.

Import PyFloat.
Open Scope float_scope.

Definition fsum (l : list float) : float := fold_left PrimFloat.add l 0.

Definition mean (l : list float) : float := fsum l / of_nat (length l).

Definition std (l : list float) : float :=
  let m := mean l in
  PrimFloat.sqrt (mean (map (fun x => (x - m) * (x - m)) l)).

Definition minimum (l : list float) : float :=
  fold_left (fun a x => if x <? a then x else a) l (hd 0 l).

Definition maximum (l : list float) : float :=
  fold_left (fun a x => if a <? x then x else a) l (hd 0 l).

Fixpoint insert (x : float) (l : list float) : list float :=
  match l with
  | [] => [x]
  | y :: l' => if x <=? y then x :: y :: l' else y :: insert x l'
  end.

Definition median (l : list float) : float :=
  let s := fold_right insert [] l in
  let n := length l in
  if Nat.even n then (nth (n / 2 - 1) s 0 + nth (n / 2) s 0) / 2
  else nth (n / 2) s 0.

Definition np : Numpy :=
  {| np_mean := mean; np_std := std; np_min := minimum; np_max := maximum;
     np_median := median |}.

End reference_numpy.

(* ================================================================== *)
(** ** Properties stated about the detectors *)
(* ================================================================== *)

Module properties.

Import Py.
Open Scope Q_scope.

Section Episodes.
Import cry_detector.

(** Episodes in the order of their start times. *)
Definition time_ordered (episodes : list CryEpisode) : Prop :=
  StronglySorted (fun a b => start_time a <= start_time b) episodes.

(** Each episode starts strictly after the one before it has ended. *)
Definition non_overlapping (episodes : list CryEpisode) : Prop :=
  Sorted (fun a b => end_time a < start_time b) episodes.

Definition duration_exact (e : CryEpisode) : Prop :=
  duration e = end_time e - start_time e.

(** An episode covers a segment when the segment's span lies inside it. *)
Definition covers (e : CryEpisode) (s : Segment) : Prop :=
  start_time e <= seg_start s /\ seg_end s <= end_time e.

(** The episode that spans one segment. *)
Definition episode_of (s : Segment) : CryEpisode :=
  {| start_time := seg_start s; end_time := seg_end s;
     duration := seg_end s - seg_start s;
     confidence := np_mean [seg_conf s] |}.

(** The episode that runs from the start of [a] to the end of [b]. *)
Definition episode_merging (a b : Segment) : CryEpisode :=
  {| start_time := seg_start a; end_time := seg_end b;
     duration := seg_end b - seg_start a;
     confidence := np_mean [seg_conf a; seg_conf b] |}.

(** The statement about merging two segments with its "covering both"
    read as containment of both spans. *)
Definition merge_two_covering (self : CryDetector) : Prop :=
  forall s1 s2 a b,
    sorted seg_start [s1; s2] = [a; b] ->
    (seg_start b - seg_end a <= max_gap self ->
     exists e, _merge_segments_to_episodes self [s1; s2] = [e]
               /\ covers e a /\ covers e b)
    /\ (max_gap self < seg_start b - seg_end a ->
        length (_merge_segments_to_episodes self [s1; s2]) = 2%nat).


End Episodes.

Section Units.
Import cry_unit_detector.

(** [np.mean(librosa.feature.zero_crossing_rate(audio)[0])]. *)
Definition mean_zcr (lib : SignalLib) (audio : list Q) : Q :=
  np_mean (librosa_zero_crossing_rate lib audio).

(** [np.sqrt(np.mean(audio ** 2))]. *)
Definition rms_energy (lib : SignalLib) (audio : list Q) : Q :=
  np_sqrt lib (np_mean (map (fun x => x * x) audio)).

(** The voicing criterion of the specification. *)
Definition low_zcr_and_enough_energy (lib : SignalLib) (audio : list Q)
  : Prop :=
  mean_zcr lib audio < 0.1 /\ 0.01 <= rms_energy lib audio.

(** The mean of a list, and zero for the empty list. *)
Definition mean_or_zero (l : list Q) : Q :=
  match l with
  | [] => 0
  | _ => sum l / len l
  end.

(** The sum of a list, and zero for the empty list. *)
Definition sum_or_zero (l : list Q) : Q :=
  match l with
  | [] => 0
  | _ => sum l
  end.

Definition voiced_durations (units : list CryUnit) : list Q :=
  map duration (filter (fun u => is_voiced u) units).

Definition unvoiced_durations (units : list CryUnit) : list Q :=
  map duration (filter (fun u => negb (is_voiced u)) units).

(** The samples [detect_units_in_episode] cuts out for the episode. *)
Definition episode_audio (self : CryUnitDetector) (y : list Q)
           (episode_start_time episode_end_time : Q) : list Q :=
  slice y (int (episode_start_time * sr self))
          (int (episode_end_time * sr self)).

(** The energy envelope it works on, smoothed when it has five frames. *)
Definition envelope (lib : SignalLib) (audio : list Q) : list Q :=
  let energy := librosa_rms lib audio in
  if (5 <=? length energy)%nat then savgol_filter_5_2 lib energy else energy.

(** The length of the envelope in seconds: the number of frames times the
    duration of a hop. *)
Definition envelope_duration (lib : SignalLib) (self : CryUnitDetector)
           (audio : list Q) : Q :=
  len (envelope lib audio) * (512 / sr self).

(** A span of seconds within [0, total]. *)
Definition within (total : Q) (b : Q * Q) : Prop :=
  0 <= fst b /\ snd b <= total.

(** A silence segment of an envelope of [n] frames: it starts at one of the
    frames and does not end before time zero. *)
Definition on_grid (frame_duration : Q) (n : nat) (seg : Q * Q) : Prop :=
  0 <= snd seg /\ fst seg <= of_nat n * frame_duration.

(** What the loop of [_find_silence_segments] keeps true. *)
Definition silence_invariant (frame_duration : Q) (n : nat)
           (st : SilenceState) : Prop :=
  Forall (on_grid frame_duration n) (segments st)
  /\ (silence_start st <= n)%nat.

(** A unit inside the span [from, to]. *)
Definition unit_within (from to : Q) (u : CryUnit) : Prop :=
  from <= start_time u /\ end_time u <= to
  /\ duration u = end_time u - start_time u.

(** The default detector with a shorter minimum unit duration (10 ms). *)
Definition short_units : CryUnitDetector :=
  {| sr := sr default; silence_threshold := silence_threshold default;
     min_unit_duration := 0.01;
     min_silence_duration := min_silence_duration default;
     voiced_threshold := voiced_threshold default |}.
End Units.

Section Acoustic.
Import PyFloat PyDict acoustic_analyzer.

(** The statistics of a parameter with no defined sample. *)
Definition all_null : Statistics :=
  {| mean := None; std := None; min := None; max := None; median := None |}.

(** The defined samples of a parameter, in the order of the frames. *)
Fixpoint defined_samples (getattr : AcousticFeatures -> option float)
         (features_list : list AcousticFeatures) : list float :=
  match features_list with
  | [] => []
  | f :: rest =>
      match getattr f with
      | Some v => v :: defined_samples getattr rest
      | None => defined_samples getattr rest
      end
  end.

Definition voiced_count (features_list : list AcousticFeatures) : nat :=
  count is_voiced_frame features_list.

Definition unvoiced_count (features_list : list AcousticFeatures) : nat :=
  length features_list - voiced_count features_list.

(** A share of the frames as an exact percentage. *)
Definition exact_pct (n total : nat) : Q :=
  (Py.of_nat n / Py.of_nat total * 100)%Q.

(** The percentage the program computes from a count: the quotient and the
    product in binary64, then [round(_, 2)]. *)
Definition rounded_pct (n total : nat) : float :=
  round2 (true_div n total * 100)%float.

(** A frame with the given pitch and nothing else measured. *)
Definition frame_with_f0 (v : option float) : AcousticFeatures :=
  {| time := 0%float; f0 := v; f1 := None; f2 := None; f3 := None;
     hnr := None; shimmer := None; jitter := None; intensity := None |}.

(** [voiced] frames with a pitch of 300 Hz, then unvoiced frames, [total]
    in all. *)
Definition frames (voiced total : nat) : list AcousticFeatures :=
  repeat (frame_with_f0 (Some 300%float)) voiced
  ++ repeat (frame_with_f0 None) (total - voiced).
End Acoustic.

Section Tasks.
Import PyDict analysis_tasks.

(** The status of a file in a set of tables. *)
Definition status_of (t : Tables) (file_id : Z) : option string :=
  option_map status (find (fun f => (id f =? file_id)%Z) (audio_files t)).

(** The exception the body of the episode loop raises for an episode, if
    one of its five calls raises: the first that does. *)
Definition episode_raises (an : Analysers) (audio_file : AudioFile)
           (y_full : list Q) (episode : cry_detector.CryEpisode)
  : option Exception :=
  let start := cry_detector.start_time episode in
  let end_ := cry_detector.end_time episode in
  match snd (analyze_segment an (file_path audio_file) start end_) with
  | Raise e => Some e
  | Ok features =>
      match compute_statistics an features with
      | Raise e => Some e
      | Ok _ =>
          match compute_special_parameters an features with
          | Raise e => Some e
          | Ok _ =>
              match detect_units_in_episode an y_full start end_ with
              | Raise e => Some e
              | Ok cry_units =>
                  match calculate_cry_unit_metrics an cry_units with
                  | Raise e => Some e
                  | Ok _ => None
                  end
              end
          end
      end
  end.

(** A computation that leaves both sets of tables as they are. *)
Definition tables_kept (w w' : World) : Prop :=
  session w' = session w /\ database w' = database w.

Definition keeps_tables {A} (m : M A) : Prop :=
  forall w r w', m w = (r, w') -> tables_kept w w'.

(** The tables once the file is marked [s] and the change committed. *)
Definition marked (s : string) (file_id : Z) (t : Tables) : Tables :=
  {| audio_files :=
       map (fun f => if (id f =? file_id)%Z
                     then {| id := id f; file_path := file_path f;
                             status := s |}
                     else f)
           (audio_files t);
     analysis_results := analysis_results t |}.

(** The job ends in failure with [e]: the task raises [e], the database
    holds the file as failed, and no analysis result was written, neither
    to the database nor to the session. *)
Definition job_failed_with (an : Analysers) (file_id : Z) (w : World)
           (e : Exception) : Prop :=
  exists w',
    analyze_audio_file an file_id w = (Raise e, w')
    /\ status_of (database w') file_id = Some "failed"%string
    /\ analysis_results (database w') = analysis_results (database w)
    /\ analysis_results (session w') = analysis_results (database w).

(** Scenario E: three episodes, and a failure raised while the second is
    analysed.  The other calls are the analysers of this development. *)
Definition episode_at (start end_ : Q) : cry_detector.CryEpisode :=
  {| cry_detector.start_time := start; cry_detector.end_time := end_;
     cry_detector.duration := end_ - start;
     cry_detector.confidence := 1 |}.

Definition simulated_failure : Exception :=
  Error "RuntimeError" "simulated failure".

Definition scenario_E : Analysers :=
  {| detect_from_file := fun _ =>
       Ok [episode_at 0 2; episode_at 10 12; episode_at 20 22];
     librosa_load := fun _ => Ok [];
     analyze_segment := fun _ start _ =>
       if Qeq_bool start 10
       then ([(1, "Loading audio segment"); (2, "Extracting segment")]%string,
             Raise simulated_failure)
       else ([(1, "Loading audio segment"); (2, "Extracting segment")]%string,
             Ok [frame_with_f0 None]);
     compute_statistics := fun features =>
       Ok (acoustic_analyzer.compute_statistics reference_numpy.np features);
     compute_special_parameters := fun features =>
       Ok (acoustic_analyzer.compute_special_parameters
             features acoustic_analyzer.default_high_pitch_threshold);
     detect_units_in_episode := fun y start end_ =>
       Ok (cry_unit_detector.detect_units_in_episode
             reference.lib cry_unit_detector.default y start end_);
     calculate_cry_unit_metrics := fun units =>
       Ok (cry_unit_detector.calculate_cry_unit_metrics units) |}.

(** The same analysers on a recording where the failing episode is not
    detected. *)
Definition scenario_ok : Analysers :=
  {| detect_from_file := fun _ => Ok [episode_at 0 2; episode_at 20 22];
     librosa_load := librosa_load scenario_E;
     analyze_segment := analyze_segment scenario_E;
     compute_statistics := compute_statistics scenario_E;
     compute_special_parameters := compute_special_parameters scenario_E;
     detect_units_in_episode := detect_units_in_episode scenario_E;
     calculate_cry_unit_metrics := calculate_cry_unit_metrics scenario_E |}.

Definition uploaded_file : AudioFile :=
  {| id := 7; file_path := "cry.wav"; status := "uploaded" |}.

Definition uploaded_world : World :=
  {| database := {| audio_files := [uploaded_file]; analysis_results := [] |};
     session := {| audio_files := [uploaded_file]; analysis_results := [] |};
     progress := [] |}.
End Tasks.

End properties.


From Stdlib Require DecimalNat.

(* ================================================================== *)
(** ** Further properties of the detectors *)
(* ================================================================== *)

Module more_properties.

Import Py.
Open Scope Q_scope.
Open Scope list_scope.

Section Segments.
Import cry_detector.


(** Frames [a, b) are a maximal run of cry frames: all of them are cry
    frames, the frame before [a] and the frame [b] are not, where there is
    one. *)
Definition maximal_run (is_cry : list bool) (a b : nat) : Prop :=
  (a < b <= length is_cry)%nat
  /\ (forall i, (a <= i < b)%nat -> nth i is_cry false = true)
  /\ (a = 0%nat \/ nth (a - 1) is_cry false = false)
  /\ (b = length is_cry \/ nth b is_cry false = false).











(** The loop compares [segment_frames * frame_duration] with
    [min_duration] after two roundings.  The statements about which runs
    are reported leave one frame of margin, so that they do not depend on
    how a run of just [min_duration] is rounded. *)





(** The segments of all the chunks of a recording, as [detect_from_file]
    gathers them. *)
Definition all_segments (lib : SignalLib) (self : CryDetector)
           (chunks : list (list Q)) : list Segment :=
  flat_map (fun ky : nat * list Q =>
              let offset := of_nat (fst ky) * chunk_duration self in
              _detect_cry_segments lib self (snd ky) offset)
           (enumerate chunks).

(** The segments, in the order given, cut wherever a segment starts more
    than [max_gap] after the segment before it has ended. *)
Fixpoint groups (self : CryDetector) (segs : list Segment)
  : list (list Segment) :=
  match segs with
  | [] => []
  | s :: rest =>
      match groups self rest with
      | (s' :: g) :: gs =>
          if Qle_bool (seg_start s' - seg_end s) (max_gap self)
          then (s :: s' :: g) :: gs
          else [s] :: (s' :: g) :: gs
      | _ => [[s]]
      end
  end.

(** A list of segments with no large gap inside. *)
Fixpoint tight (self : CryDetector) (g : list Segment) : Prop :=
  match g with
  | s :: ((s' :: _) as g') =>
      Qle_bool (seg_start s' - seg_end s) (max_gap self) = true
      /\ tight self g'
  | _ => True
  end.

(** The episode of a group: from the start of its first segment to the end
    of its last one, with the mean of the confidences. *)
Definition episode_of_group (g : list Segment) : CryEpisode :=
  let current_start := seg_start (hd (0, 0, 0) g) in
  let current_end := seg_end (last g (0, 0, 0)) in
  {| start_time := current_start;
     end_time := current_end;
     duration := current_end - current_start;
     confidence := np_mean (map seg_conf g) |}.


(** No frame of the chunk is louder than the energy threshold. *)
Definition quiet (lib : SignalLib) (self : CryDetector) (y : list Q) : Prop :=
  Forall (fun e => e <= energy_threshold self) (librosa_rms lib y).
End Segments.

Section Units.
Import cry_unit_detector properties.

(** The silent frames of an envelope: [energy < self.silence_threshold]. *)
Definition silent_frames (self : CryUnitDetector) (energy : list Q)
  : list bool :=
  map (fun e => Qltb e (silence_threshold self)) energy.

(** A silence segment that spans a maximal run of silent frames lasting at
    least [min_silence_duration]. *)
Definition spans_long_silence (self : CryUnitDetector) (frame_duration : Q)
           (frames : list bool) (seg : Q * Q) : Prop :=
  exists a b,
    maximal_run frames a b
    /\ fst seg = of_nat a * frame_duration
    /\ snd seg = of_nat b * frame_duration
    /\ min_silence_duration self
       <= (of_nat b - of_nat a) * frame_duration.

(** The run of frames [a, b), when it lasts at least
    [min_silence_duration], is one of the silence segments. *)
Definition long_silence_reported (self : CryUnitDetector)
           (frame_duration : Q) (segs : list (Q * Q)) (a b : nat) : Prop :=
  min_silence_duration self <= (of_nat b - of_nat a) * frame_duration ->
  In (of_nat a * frame_duration, of_nat b * frame_duration) segs.

Definition silences_reported_before (self : CryUnitDetector)
           (frame_duration : Q) (frames : list bool) (i : nat)
           (segs : list (Q * Q)) : Prop :=
  forall a b, maximal_run frames a b -> (b < i)%nat ->
              long_silence_reported self frame_duration segs a b.

(** Each span ends strictly before the next one starts. *)
Definition spans_apart (spans : list (Q * Q)) : Prop :=
  StronglySorted (fun s1 s2 => snd s1 < fst s2) spans.

(** What the loop of [_find_silence_segments] keeps true once the frames
    before [i] are read. *)
Definition silence_run_invariant (self : CryUnitDetector)
           (frame_duration : Q) (frames : list bool) (i : nat)
           (st : SilenceState) : Prop :=
  spans_apart (segments st)
  /\ Forall (spans_long_silence self frame_duration frames) (segments st)
  /\ if in_silence st then
       (silence_start st < i)%nat
       /\ (forall j, (silence_start st <= j < i)%nat ->
                     nth j frames false = true)
       /\ (silence_start st = 0%nat
           \/ nth (silence_start st - 1) frames false = false)
       /\ Forall (fun s => snd s < of_nat (silence_start st) * frame_duration)
                 (segments st)
     else
       (i = 0%nat \/ nth (i - 1) frames false = false)
       /\ Forall (fun s => snd s < of_nat i * frame_duration) (segments st).

(** No unit starts before an earlier one has ended. *)
Definition units_in_time_order (units : list CryUnit) : Prop :=
  StronglySorted (fun u v => end_time u <= start_time v) units.

Definition unit_lasts (d : Q) (u : CryUnit) : Prop := d <= duration u.

End Units.

End more_properties.

(* ================================================================== *)
(** ** app/audio/acoustic_analyzer.py: the analysis of a segment *)
(* ================================================================== *)

(** [analyze_segment] and [analyze_file] read a recording through
    Parselmouth.  The Praat objects are modelled by what the two functions
    observe of them: a call that the source leaves unguarded, or guards with
    [try], returns or raises; the per-frame queries on pitch, formants and
    intensity return a float, NaN where Praat has no value. *)

Module parselmouth.

Import analysis_tasks.

Record Pitch : Type := mkPitch {
  (* pitch.xs() *)
  xs : list float;
  (* pitch.get_value_at_time(t) *)
  pitch_get_value_at_time : float -> float
}.

Record Formant : Type := mkFormant {
  (* formants.xmax *)
  xmax : float;
  (* formants.get_value_at_time(n, t) *)
  formant_get_value_at_time : Z -> float -> float
}.

Record Intensity : Type := mkIntensity {
  (* intensity.get_value(time=t) *)
  intensity_get_value : float -> float
}.

Record Harmonicity : Type := mkHarmonicity {
  (* bool(harmonicity) *)
  harmonicity_bool : bool;
  (* harmonicity.get_value(time=t) *)
  harmonicity_get_value : float -> Result float
}.

Record PointProcess : Type := mkPointProcess {
  (* call(point_process, "Get jitter (local)", start, end,
          0.0001, 0.02, 1.3) *)
  get_jitter_local : float -> float -> Result float
}.

Record Segment : Type := mkSegment {
  (* segment.to_pitch(time_step=, pitch_floor=, pitch_ceiling=) *)
  to_pitch : float -> float -> float -> Result Pitch;
  (* segment.to_formant_burg(time_step=, max_number_of_formants=) *)
  to_formant_burg : float -> Z -> Result Formant;
  (* call(segment, "To PointProcess (periodic, cc)", f0_min, f0_max) *)
  to_point_process : float -> float -> Result PointProcess;
  (* segment.to_intensity(time_step=) *)
  to_intensity : float -> Result Intensity;
  (* segment.to_harmonicity(time_step=) *)
  to_harmonicity : float -> Result Harmonicity;
  (* call([segment, point_process], "Get shimmer (local)", start, end,
          0.0001, 0.02, 1.3, 1.6) *)
  get_shimmer_local : PointProcess -> float -> float -> Result float
}.

Record Sound : Type := mkSound {
  (* sound.duration *)
  duration : float;
  (* sound.extract_part(from_time=, to_time=, preserve_times=True) *)
  extract_part : float -> float -> Result Segment
}.

(** [parselmouth.Sound(file_path)], for the files of one file system. *)
Definition Files : Type := string -> Result Sound.

End parselmouth.

Module segment_analysis.

Import PyFloat PyDict acoustic_analyzer analysis_tasks parselmouth.
Open Scope string_scope.
Open Scope float_scope.
Open Scope list_scope.
Set Warnings "-inexact-float".

(** The fields [AcousticAnalyzer.__init__] stores. *)
Record AcousticAnalyzer : Type := mkAcousticAnalyzer {
  time_step    : float;
  f0_min       : float;
  f0_max       : float;
  max_formants : Z
}.

(** [AcousticAnalyzer()], the constructor's default arguments. *)
Definition default : AcousticAnalyzer :=
  {| time_step := 0.01; f0_min := 75; f0_max := 600; max_formants := 5 |}.

(** [int(x)] on a float that is finite: truncation towards zero.  (On an
    infinity or a NaN, Python raises; [analyze_segment] calls it on
    [idx / total_frames * 100] only, with [idx < total_frames].) *)
Definition int (x : float) : Z :=
  match Prim2SF x with
  | S754_finite s m e =>
      let v := if (0 <=? e)%Z then (Zpos m * 2 ^ e)%Z
               else (Zpos m / 2 ^ (- e))%Z in
      if s then (- v)%Z else v
  | _ => 0%Z
  end.

(** [v if v and not np.isnan(v) else None]: a zero is falsy, a NaN is
    dropped. *)
Definition present (v : float) : option float :=
  if v =? 0 then None else if is_nan v then None else Some v.

(** [v * 100 if v and not np.isnan(v) else None]. *)
Definition present_pct (v : float) : option float :=
  if v =? 0 then None else if is_nan v then None else Some (v * 100).

(** [try: x = call() ... except: x = None]. *)
Definition try_or_none {A} (r : Result A) : option A :=
  match r with
  | Ok a => Some a
  | Raise _ => None
  end.

(** A call of [progress_callback(step, message)]. *)
Definition Callback : Type := float * string.

(** Computations of [analyze_segment]: the calls of the callback made so
    far, oldest first, and the value returned or the exception raised. *)
Definition W (A : Type) : Type := list Callback * Result A.

Definition ret {A} (a : A) : W A := ([], Ok a).

Definition bind {A B} (m : W A) (k : A -> W B) : W B :=
  match m with
  | (calls, Ok a) => let (calls', r) := k a in (calls ++ calls', r)
  | (calls, Raise e) => (calls, Raise e)
  end.

Declare Scope writer_scope.
Notation "x <- m ;; k" := (bind m (fun x => k))
  (at level 61, m at next level, right associativity) : writer_scope.
Notation "m ;;; k" := (bind m (fun _ => k))
  (at level 61, right associativity) : writer_scope.
Open Scope writer_scope.

(** A call into Parselmouth: no callback, a value or an exception. *)
Definition call {A} (r : Result A) : W A := ([], r).

Section Analyzer.
Variable self : AcousticAnalyzer.
Variable files : Files.

(** [if progress_callback: progress_callback(step, message)]. *)
Definition report (progress_callback : bool) (step : float)
           (message : string) : W unit :=
  if progress_callback then ([(step, message)], Ok tt) else ret tt.

(** The hnr of the frame at [t]. *)
Definition hnr_at (harmonicity : option Harmonicity) (t : float)
  : option float :=
  match harmonicity with
  | Some h =>
      if harmonicity_bool h then
        match harmonicity_get_value h t with
        | Ok hnr_value => present hnr_value
        | Raise _ => None
        end
      else None
  | None => None
  end.

(** [formants.get_value_at_time(n, t) if t <= formants.xmax else None],
    then the NaN check. *)
Definition formant_at (formants : Formant) (n : Z) (t : float)
  : option float :=
  if t <=? xmax formants
  then present (formant_get_value_at_time formants n t)
  else None.

(** The features of the frame at [t]. *)
Definition features_at (pitch : Pitch) (formants : Formant)
           (harmonicity : option Harmonicity) (intensity : Intensity)
           (shimmer jitter : option float) (t : float) : AcousticFeatures :=
  {| time := t;
     f0 := present (pitch_get_value_at_time pitch t);
     f1 := formant_at formants 1 t;
     f2 := formant_at formants 2 t;
     f3 := formant_at formants 3 t;
     hnr := hnr_at harmonicity t;
     shimmer := shimmer;
     jitter := jitter;
     intensity := present (intensity_get_value intensity t) |}.

(** [idx % max(1, total_frames // 10) == 0]. *)
Definition reports_frame (total_frames idx : nat) : bool :=
  (idx mod Nat.max 1 (total_frames / 10) =? 0)%nat.

(** The message of the callback of frame [idx]. *)
Definition frame_message (total_frames idx : nat) : string :=
  let progress_pct := int (true_div idx total_frames * 100) in
  "Extracting features: frame " ++ str (idx + 1) ++ "/" ++ str total_frames
  ++ " (" ++ str (Z.to_nat progress_pct) ++ "%)".

(** The body of [for idx, t in enumerate(times)]. *)
Definition frame_step (progress_callback : bool) (total_frames : nat)
           (pitch : Pitch) (formants : Formant)
           (harmonicity : option Harmonicity) (intensity : Intensity)
           (shimmer jitter : option float)
           (features_list : list AcousticFeatures) (it : nat * float)
  : W (list AcousticFeatures) :=
  let (idx, t) := it in
  (if reports_frame total_frames idx
   then report progress_callback (7 + true_div idx total_frames * 3)
               (frame_message total_frames idx)
   else ret tt) ;;;
  ret (features_list
       ++ [features_at pitch formants harmonicity intensity shimmer jitter t]).

Fixpoint frame_loop (progress_callback : bool) (total_frames : nat)
         (pitch : Pitch) (formants : Formant)
         (harmonicity : option Harmonicity) (intensity : Intensity)
         (shimmer jitter : option float)
         (frames : list (nat * float))
         (features_list : list AcousticFeatures)
  : W (list AcousticFeatures) :=
  match frames with
  | [] => ret features_list
  | it :: rest =>
      features_list' <- frame_step progress_callback total_frames pitch
                                   formants harmonicity intensity
                                   shimmer jitter features_list it ;;
      frame_loop progress_callback total_frames pitch formants harmonicity
                 intensity shimmer jitter rest features_list'
  end.

(** [analyze_segment(file_path, start_time, end_time, progress_callback)];
    [progress_callback] tells whether a callback was passed. *)
Definition analyze_segment (file_path : string) (start_time end_time : float)
           (progress_callback : bool) : W (list AcousticFeatures) :=
  report progress_callback 1 "Loading audio segment" ;;;
  sound <- call (files file_path) ;;
  report progress_callback 2 "Extracting segment" ;;;
  segment <- call (extract_part sound start_time end_time) ;;
  report progress_callback 3 "Computing F0 (pitch)" ;;;
  pitch <- call (to_pitch segment (time_step self) (f0_min self)
                          (f0_max self)) ;;
  report progress_callback 4 "Computing formants" ;;;
  formants <- call (to_formant_burg segment (time_step self)
                                    (max_formants self)) ;;
  report progress_callback 5 "Creating point process" ;;;
  point_process <- call (to_point_process segment (f0_min self)
                                          (f0_max self)) ;;
  report progress_callback 6 "Computing intensity" ;;;
  intensity <- call (to_intensity segment (time_step self)) ;;
  report progress_callback 6.5 "Computing harmonicity (HNR)" ;;;
  let harmonicity := try_or_none (to_harmonicity segment (time_step self)) in
  report progress_callback 6.7 "Computing jitter and shimmer" ;;;
  let jitter :=
    match get_jitter_local point_process start_time end_time with
    | Ok jitter_value => present_pct jitter_value
    | Raise _ => None
    end in
  let shimmer :=
    match get_shimmer_local segment point_process start_time end_time with
    | Ok shimmer_value => present_pct shimmer_value
    | Raise _ => None
    end in
  let times := xs pitch in
  let total_frames := length times in
  frame_loop progress_callback total_frames pitch formants harmonicity
             intensity shimmer jitter (Py.enumerate times) [].

(** The loop of [analyze_file] over [enumerate(segments)]; it passes no
    callback. *)
Fixpoint segments_loop (file_path : string)
         (segments : list (nat * (float * float)))
         (results : Dict (list AcousticFeatures))
  : Result (Dict (list AcousticFeatures)) :=
  match segments with
  | [] => Ok results
  | (i, (start, end_)) :: rest =>
      let segment_id := ("segment_" ++ str i)%string in
      match snd (analyze_segment file_path start end_ false) with
      | Ok features =>
          segments_loop file_path rest (set results segment_id features)
      | Raise e => Raise e
      end
  end.

(** [analyze_file(file_path, segments)]; [None] stands for the whole
    file. *)
Definition analyze_file (file_path : string)
           (segments : option (list (float * float)))
  : Result (Dict (list AcousticFeatures)) :=
  match segments with
  | Some segments =>
      segments_loop file_path (Py.enumerate segments) []
  | None =>
      match files file_path with
      | Ok sound =>
          segments_loop file_path
                        (Py.enumerate [(0, duration sound)]) []
      | Raise e => Raise e
      end
  end.

End Analyzer.

End segment_analysis.

(* ================================================================== *)
(** ** A stand-in for Praat, to run the analysis on *)
(* ================================================================== *)

Module reference_praat.

Import PyFloat analysis_tasks parselmouth.
Open Scope float_scope.
Open Scope list_scope.

(** Three frames; the first one has no pitch. *)
Definition pitch : Pitch :=
  {| xs := [0.5; 1; 1.5];
     pitch_get_value_at_time := fun t => if t <? 1 then nan else 440 |}.

(** Formants at multiples of 500 Hz, up to one second. *)
Definition formants : Formant :=
  {| xmax := 1;
     formant_get_value_at_time := fun n _ => of_Z (500 * n) |}.

Definition intensity : Intensity :=
  {| intensity_get_value := fun _ => 60 |}.

Definition point_process : PointProcess :=
  {| get_jitter_local := fun _ _ => Ok 0.25 |}.

(** A segment for which Praat computes no harmonicity and no shimmer. *)
Definition segment : Segment :=
  {| to_pitch := fun _ _ _ => Ok pitch;
     to_formant_burg := fun _ _ => Ok formants;
     to_point_process := fun _ _ => Ok point_process;
     to_intensity := fun _ => Ok intensity;
     to_harmonicity :=
       fun _ => Raise (Error "PraatError" "Sound too short");
     get_shimmer_local := fun _ _ _ => Ok nan |}.

Definition sound : Sound :=
  {| duration := 2; extract_part := fun _ _ => Ok segment |}.

(** A file system with one recording. *)
Definition files : Files :=
  fun file_path =>
    if String.eqb file_path "cry.wav" then Ok sound
    else Raise (Error "PraatError" "Cannot open file").

End reference_praat.

(* ================================================================== *)
(** ** Properties stated about the analysis of a segment *)
(* ================================================================== *)

Module segment_properties.

Import PyFloat PyDict acoustic_analyzer analysis_tasks parselmouth
       segment_analysis.
Open Scope float_scope.
Open Scope list_scope.
Set Warnings "-inexact-float".

(** A value the zero and NaN check lets through. *)
Definition usable (v : float) : Prop := (v =? 0) = false /\ is_nan v = false.

(** The parameter of the frame is absent or usable. *)
Definition measured (getattr : AcousticFeatures -> option float)
           (f : AcousticFeatures) : Prop :=
  forall v, getattr f = Some v -> usable v.

(** The parameters measured frame by frame. *)
Definition per_frame_parameters : list (AcousticFeatures -> option float) :=
  [f0; f1; f2; f3; hnr; intensity].

Definition clean (f : AcousticFeatures) : Prop :=
  Forall (fun getattr => measured getattr f) per_frame_parameters.

(** The objects the six unguarded calls of [analyze_segment] return. *)
Record Opened : Type := mkOpened {
  the_sound         : Sound;
  the_segment       : Segment;
  the_pitch         : Pitch;
  the_formants      : Formant;
  the_point_process : PointProcess;
  the_intensity     : Intensity
}.

(** The six calls return, and return these objects. *)
Definition opens (self : AcousticAnalyzer) (files : Files)
           (file_path : string) (start_time end_time : float) (o : Opened)
  : Prop :=
  files file_path = Ok (the_sound o)
  /\ extract_part (the_sound o) start_time end_time = Ok (the_segment o)
  /\ to_pitch (the_segment o) (time_step self) (f0_min self) (f0_max self)
     = Ok (the_pitch o)
  /\ to_formant_burg (the_segment o) (time_step self) (max_formants self)
     = Ok (the_formants o)
  /\ to_point_process (the_segment o) (f0_min self) (f0_max self)
     = Ok (the_point_process o)
  /\ to_intensity (the_segment o) (time_step self) = Ok (the_intensity o).

(** What the analysis keeps as jitter, shimmer and harmonicity of the
    segment. *)
Definition jitter_of (start_time end_time : float) (o : Opened)
  : option float :=
  match get_jitter_local (the_point_process o) start_time end_time with
  | Ok jitter_value => present_pct jitter_value
  | Raise _ => None
  end.

Definition shimmer_of (start_time end_time : float) (o : Opened)
  : option float :=
  match get_shimmer_local (the_segment o) (the_point_process o)
                          start_time end_time with
  | Ok shimmer_value => present_pct shimmer_value
  | Raise _ => None
  end.

Definition harmonicity_of (self : AcousticAnalyzer) (o : Opened)
  : option Harmonicity :=
  try_or_none (to_harmonicity (the_segment o) (time_step self)).

(** The frame the analysis makes for the time [t]. *)
Definition frame_of (self : AcousticAnalyzer) (start_time end_time : float)
           (o : Opened) (t : float) : AcousticFeatures :=
  features_at (the_pitch o) (the_formants o) (harmonicity_of self o)
              (the_intensity o) (shimmer_of start_time end_time o)
              (jitter_of start_time end_time o) t.

(** [to_harmonicity] raises, or returns an object that is falsy. *)
Definition no_harmonicity (self : AcousticAnalyzer) (segment : Segment)
  : Prop :=
  match to_harmonicity segment (time_step self) with
  | Raise _ => True
  | Ok h => harmonicity_bool h = false
  end.

(** One of the three measures of hyper-phonation is missing for the whole
    segment. *)
Definition a_measure_is_missing (self : AcousticAnalyzer)
           (start_time end_time : float) (o : Opened) : Prop :=
  no_harmonicity self (the_segment o)
  \/ jitter_of start_time end_time o = None
  \/ shimmer_of start_time end_time o = None.

(** The analysis of segment [seg] of a file returns [features]. *)
Definition analysed (self : AcousticAnalyzer) (files : Files)
           (file_path : string) (seg : float * float)
           (features : list AcousticFeatures) : Prop :=
  snd (analyze_segment self files file_path (fst seg) (snd seg) false)
  = Ok features.

(** The dict with the entry [segment_i] for the [i]-th list of frames. *)
Definition keyed_by_segment (results : list (list AcousticFeatures))
  : Dict (list AcousticFeatures) :=
  map (fun ir : nat * list AcousticFeatures =>
         (("segment_" ++ str (fst ir))%string, snd ir))
      (Py.enumerate results).

(** The objects of the stand-in. *)
Definition reference_opened : Opened :=
  {| the_sound := reference_praat.sound;
     the_segment := reference_praat.segment;
     the_pitch := reference_praat.pitch;
     the_formants := reference_praat.formants;
     the_point_process := reference_praat.point_process;
     the_intensity := reference_praat.intensity |}.



End segment_properties.

(* ================================================================== *)
(** ** Properties stated about the job *)
(* ================================================================== *)

Module task_properties.

Import Py PyDict analysis_tasks properties.
Open Scope Q_scope.
Open Scope list_scope.

(** The callbacks of one segment come with steps that never decrease and
    lie between 0 and 11 ([analyze_segment] uses the steps 1 to 10). *)
Definition orderly (callbacks : list (Q * string)) : Prop :=
  StronglySorted Qle (map fst callbacks)
  /\ Forall (fun s => 0 <= s /\ s <= 11) (map fst callbacks).

(** Progress reports that never decrease and lie between [lo] and [hi]. *)
Definition steps_within (lo hi : Z) (reported : list (Z * string)) : Prop :=
  StronglySorted Z.le (map fst reported)
  /\ Forall (fun p => (lo <= p <= hi)%Z) (map fst reported).

(** A computation whose progress reports, whatever its outcome, never
    decrease and lie between [lo] and [hi]. *)
Definition reports {A} (lo hi : Z) (m : M A) : Prop :=
  forall w, exists reported,
    progress (snd (m w)) = progress w ++ reported
    /\ steps_within lo hi reported.

(** [base_progress] and [step_size] of the episode loop. *)
Definition base_progress (total_episodes i : nat) : Z :=
  (50 + int (of_nat i / of_nat (Nat.max total_episodes 1) * 30))%Z.

Definition step_size (total_episodes : nat) : Z :=
  int (30 / of_nat (Nat.max total_episodes 1) / 15).

(** The tables with one more analysis result. *)
Definition added (row : AnalysisResult) (t : Tables) : Tables :=
  {| audio_files := audio_files t;
     analysis_results := analysis_results t ++ [row] |}.

(** The job has completed: from the world [w] to the world [w'] it has
    added one row for the file, whose id is [returned], and marked the
    file as completed; the session has been committed, and the last
    progress report is the one at 100. *)
Definition completed (file_id : Z) (w : World) (returned : Z) (w' : World)
  : Prop :=
  exists row,
    returned = result_id row
    /\ audio_file_id row = file_id
    /\ session w' = added row (marked "completed" file_id (session w))
    /\ database w' = session w'
    /\ status_of (session w) file_id <> None
    /\ exists earlier,
         progress w' = earlier ++ [(100%Z, "Analysis completed"%string)].

(** What the body of the episode loop stores for an episode under its key
    in the three dicts, when none of its five calls raises. *)
Definition stored (an : Analysers) (audio_file : AudioFile)
           (y_full : list Q) (episode : cry_detector.CryEpisode)
  : option (list acoustic_analyzer.AcousticFeatures
            * EpisodeStatistics * EpisodeCryUnits) :=
  let start := cry_detector.start_time episode in
  let end_ := cry_detector.end_time episode in
  match snd (analyze_segment an (file_path audio_file) start end_) with
  | Ok features =>
      match compute_statistics an features with
      | Ok statistics =>
          match compute_special_parameters an features with
          | Ok special_params =>
              match detect_units_in_episode an y_full start end_ with
              | Ok cry_units =>
                  match calculate_cry_unit_metrics an cry_units with
                  | Ok (cryCE, unvoicedCE) =>
                      Some (features,
                            {| statistics_ := statistics;
                               special_params := special_params;
                               cryCE_ := cryCE; unvoicedCE_ := unvoicedCE;
                               cry_unit_count := length cry_units |},
                            {| units := cry_units;
                               unit_count := length cry_units;
                               cryCE := cryCE; unvoicedCE := unvoicedCE |})
                  | Raise _ => None
                  end
              | Raise _ => None
              end
          | Raise _ => None
          end
      | Raise _ => None
      end
  | Raise _ => None
  end.

(** The dict with the entry [episode_i] for the [i]-th value. *)
Definition keyed_by_episode {V} (values : list V) : Dict V :=
  map (fun iv : nat * V => (("episode_" ++ str (fst iv))%string, snd iv))
      (enumerate values).

(** The result document for the episodes and what was stored for each. *)
Definition result_document
           (episodes : list cry_detector.CryEpisode)
           (entries : list (list acoustic_analyzer.AcousticFeatures
                            * EpisodeStatistics * EpisodeCryUnits))
  : ResultData :=
  {| cry_episodes := episodes;
     acoustic_features := keyed_by_episode (map (fun e => fst (fst e)) entries);
     statistics := keyed_by_episode (map (fun e => snd (fst e)) entries);
     cry_units := keyed_by_episode (map (fun e => snd e) entries) |}.

End task_properties.
(* ================================================================== *)
(** ** Facts about the Python primitives *)
(* ================================================================== *)

Module Py_facts.

Import Py.
Open Scope Q_scope.

Lemma Qltb_lt a b : Qltb a b = true <-> a < b.
Proof.
  unfold Qltb. rewrite negb_true_iff. split; intro H.
  - apply Qnot_le_lt. intro Hle. apply Qle_bool_iff in Hle. congruence.
  - destruct (Qle_bool b a) eqn:E; [|reflexivity].
    apply Qle_bool_iff in E. exfalso. apply (Qlt_not_le _ _ H E).
Qed.

Lemma Qltb_ge a b : Qltb a b = false <-> b <= a.
Proof.
  unfold Qltb. rewrite negb_false_iff. apply Qle_bool_iff.
Qed.

Lemma Qle_bool_false a b : Qle_bool a b = false <-> b < a.
Proof.
  rewrite <- Qltb_lt. unfold Qltb. rewrite negb_true_iff. reflexivity.
Qed.

Lemma of_nat_nonneg n : 0 <= of_nat n.
Proof.
  unfold of_nat, Qle. simpl. lia.
Qed.





Section Sorting.
Context {A : Type} (key : A -> Q).

Lemma insert_Forall (P : A -> Prop) x l :
  P x -> Forall P l -> Forall P (insert key x l).
Proof.
  intros Hx Hl. induction Hl as [|y l Hy Hl IH]; simpl.
  - constructor; [assumption | constructor].
  - destruct (Qle_bool (key x) (key y)).
    + constructor; [assumption | constructor; assumption].
    + constructor; assumption.
Qed.


Lemma insert_sorted x l :
  StronglySorted (fun a b => key a <= key b) l ->
  StronglySorted (fun a b => key a <= key b) (insert key x l).
Proof.
  induction 1 as [|y l Hl IH Hy]; simpl.
  - constructor; constructor.
  - destruct (Qle_bool (key x) (key y)) eqn:E.
    + apply Qle_bool_iff in E. constructor.
      * constructor; assumption.
      * constructor; [assumption|].
        eapply Forall_impl; [|exact Hy]. intros z Hz. simpl in Hz. lra.
    + apply Qle_bool_false in E. constructor; [assumption|].
      apply insert_Forall; [lra | assumption].
Qed.

Lemma sorted_sorted l :
  StronglySorted (fun a b => key a <= key b) (sorted key l).
Proof.
  induction l; simpl; [constructor | apply insert_sorted; assumption].
Qed.
End Sorting.



End Py_facts.

(* ================================================================== *)
(** ** Facts about app/audio/cry_detector.py *)
(* ================================================================== *)

Module cry_detector_facts.

Import Py Py_facts cry_detector properties.
Open Scope Q_scope.
Open Scope list_scope.

Section Merge.
Variable self : CryDetector.

(** The episodes already emitted are a prefix of the result. *)
Lemma merge_loop_app segs : forall episodes cs ce confs,
  merge_loop self segs episodes cs ce confs
  = episodes ++ merge_loop self segs [] cs ce confs.
Proof.
  induction segs as [|[[s e] c] segs IH]; intros episodes cs ce confs; simpl.
  - reflexivity.
  - destruct (Qle_bool (s - ce) (max_gap self)).
    + apply IH.
    + rewrite IH. rewrite (IH [_]). rewrite <- app_assoc. reflexivity.
Qed.

(** One step of the loop, with the emitted episode in front. *)
Lemma merge_loop_cons s e c segs cs ce confs :
  merge_loop self ((s, e, c) :: segs) [] cs ce confs
  = if Qle_bool (s - ce) (max_gap self)
    then merge_loop self segs [] cs e (confs ++ [c])
    else {| start_time := cs; end_time := ce; duration := ce - cs;
            confidence := np_mean confs |}
         :: merge_loop self segs [] s e [c].
Proof.
  simpl. destruct (Qle_bool (s - ce) (max_gap self)); [reflexivity|].
  rewrite merge_loop_app. reflexivity.
Qed.

(** The first episode of the result starts at [current_start]. *)
Lemma merge_loop_head segs : forall cs ce confs,
  exists e tl, merge_loop self segs [] cs ce confs = e :: tl
               /\ start_time e = cs.
Proof.
  induction segs as [|[[s e] c] segs IH]; intros cs ce confs.
  - simpl. eauto.
  - rewrite merge_loop_cons. destruct (Qle_bool (s - ce) (max_gap self)).
    + apply IH.
    + eauto.
Qed.

Lemma merge_loop_ordered segs : forall cs ce confs,
  0 <= max_gap self ->
  StronglySorted (fun a b => seg_start a <= seg_start b) segs ->
  Forall (fun s => cs <= seg_start s) segs ->
  let r := merge_loop self segs [] cs ce confs in
  Sorted (fun a b => start_time a <= start_time b) r
  /\ non_overlapping r /\ Forall duration_exact r.
Proof.
  induction segs as [|[[s e] c] segs IH]; intros cs ce confs Hgap Hs Hcs.
  - simpl. repeat split; repeat constructor.
  - rewrite merge_loop_cons.
    apply StronglySorted_inv in Hs. destruct Hs as [Hs Hhd].
    inversion Hcs as [|? ? Hs0 Hcs']; subst.
    destruct (Qle_bool (s - ce) (max_gap self)) eqn:E.
    + apply IH; assumption.
    + apply Qle_bool_false in E.
      destruct (IH s e [c] Hgap Hs Hhd) as (Hord & Hno & Hdur).
      destruct (merge_loop_head segs s e [c]) as (e0 & tl & Heq & Hst).
      rewrite Heq in *. unfold seg_start in Hs0. simpl in Hs0.
      repeat split.
      * constructor; [assumption|]. constructor. simpl. rewrite Hst. lra.
      * constructor; [assumption|]. constructor. simpl. rewrite Hst. lra.
      * constructor; [reflexivity | assumption].
Qed.

Lemma start_le_trans (a b c : CryEpisode) :
  start_time a <= start_time b -> start_time b <= start_time c ->
  start_time a <= start_time c.
Proof.
  intros; lra.
Qed.

Lemma merge_ordered segments :
  0 <= max_gap self ->
  let r := _merge_segments_to_episodes self segments in
  time_ordered r /\ non_overlapping r /\ Forall duration_exact r.
Proof.
  intros Hgap. unfold _merge_segments_to_episodes.
  pose proof (sorted_sorted seg_start segments) as Hs.
  destruct (sorted seg_start segments) as [|[[s0 e0] c0] rest].
  - simpl. repeat split; constructor.
  - apply StronglySorted_inv in Hs. destruct Hs as [Hs Hhd].
    destruct (merge_loop_ordered e0 [c0] Hgap Hs Hhd) as (Hord & Hno & Hdur).
    repeat split; try assumption.
    apply Sorted_StronglySorted; [|assumption].
    intros a b c. apply start_le_trans.
Qed.



End Merge.

Section Segments.
Variable lib : SignalLib.
Variable self : CryDetector.
Hypothesis threshold_positive : 0 < energy_threshold self.







End Segments.

(** ** The claims about the episode detector *)

(** C1.  For every configuration with a non-negative merge gap (the
    default is one second), the episodes returned by
    [_merge_segments_to_episodes], for any list of segments, and by
    [detect_from_file], for any recording, are in the order of their start
    times, each starts strictly after the end of the one before it, and
    each has [duration = end_time - start_time]. *)
Theorem episodes_ordered_disjoint_exact (self : CryDetector) :
  0 <= max_gap self ->
  (forall segments,
      let r := _merge_segments_to_episodes self segments in
      time_ordered r /\ non_overlapping r /\ Forall duration_exact r)
  /\ (forall lib chunks,
         let r := detect_from_file lib self chunks in
         time_ordered r /\ non_overlapping r /\ Forall duration_exact r).
Proof.
  intro Hgap. split.
  - intro segments. apply merge_ordered. assumption.
  - intros lib chunks. unfold detect_from_file. apply merge_ordered.
    assumption.
Qed.

Lemma episodes_ordered_disjoint_exact_witness :
  0 <= max_gap default
  /\ (let r := _merge_segments_to_episodes default
                 [ (5, 6, 1); (0, 1, 0.5); (1.5, 2, 1) ] in
      time_ordered r /\ non_overlapping r /\ Forall duration_exact r).
Proof.
  assert (H : 0 <= max_gap default) by (unfold Qle; simpl; lia).
  split; [exact H|].
  exact (proj1 (episodes_ordered_disjoint_exact default H) _).
Defined.

(** What the loop does with two segments [a], [b] in the order of their
    start times: when [b] starts at most [max_gap] after [a] ends, the
    result is one episode, which ends where [b] ends, and it covers both
    segments when [a] does not end after [b]; when the gap is larger, the
    result is the two episodes of [a] and of [b]. *)
Lemma merge_two_segments (self : CryDetector) (s1 s2 a b : Segment) :
  sorted seg_start [s1; s2] = [a; b] ->
  (seg_start b - seg_end a <= max_gap self ->
   _merge_segments_to_episodes self [s1; s2] = [episode_merging a b]
   /\ (seg_end a <= seg_end b ->
       covers (episode_merging a b) a /\ covers (episode_merging a b) b))
  /\ (max_gap self < seg_start b - seg_end a ->
      _merge_segments_to_episodes self [s1; s2]
      = [episode_of a; episode_of b]).
Proof.
  intro Hsorted.
  pose proof (sorted_sorted seg_start [s1; s2]) as Hord.
  unfold _merge_segments_to_episodes. rewrite Hsorted in *.
  apply StronglySorted_inv in Hord. destruct Hord as [_ Hord].
  inversion Hord as [|? ? Hab _]; subst.
  destruct a as [[sa ea] ca], b as [[sb eb] cb].
  unfold seg_start, seg_end in *. simpl in *.
  split; intro Hgap.
  - apply Qle_bool_iff in Hgap. rewrite Hgap. split; [reflexivity|].
    intro Hends. unfold covers, episode_merging, seg_start, seg_end.
    simpl. repeat split; lra.
  - apply Qle_bool_false in Hgap. rewrite Hgap. reflexivity.
Qed.

(** C2, the failing input.  The second segment lies inside the first: the
    gap is negative, the two are merged into one episode, and the loop sets
    [current_end] to the end of the second segment, not to the later of the
    two ends.  The episode ends at 3 s, before the first segment does at
    10 s, and so does not cover it. *)
Theorem merge_two_nested_not_covered :
  let s1 : Segment := (0, 10, 1) in
  let s2 : Segment := (2, 3, 1) in
  sorted seg_start [s1; s2] = [s1; s2]
  /\ seg_start s2 - seg_end s1 <= max_gap default
  /\ _merge_segments_to_episodes default [s1; s2] = [episode_merging s1 s2]
  /\ end_time (episode_merging s1 s2) < seg_end s1
  /\ ~ covers (episode_merging s1 s2) s1
  /\ ~ merge_two_covering default.
Proof.
  cbv zeta.
  assert (Hgap : seg_start (2, 3, 1) - seg_end (0, 10, 1) <= max_gap default)
    by (unfold Qle; simpl; lia).
  assert (Hnot : ~ covers (episode_merging (0, 10, 1) (2, 3, 1)) (0, 10, 1)).
  { intros [_ H]. revert H. unfold Qle; simpl; lia. }
  repeat split; try reflexivity; try assumption.
  intro Hclaim.
  destruct (Hclaim (0, 10, 1) (2, 3, 1) (0, 10, 1) (2, 3, 1) eq_refl)
    as [H _].
  destruct (H Hgap) as (e & He & Hcov & _).
  apply Hnot. injection He as He. subst e. exact Hcov.
Qed.

End cry_detector_facts.

(* ================================================================== *)
(** ** Facts about app/audio/cry_unit_detector.py *)
(* ================================================================== *)

Module cry_unit_detector_facts.

Import Py Py_facts cry_unit_detector properties.
Open Scope Q_scope.
Open Scope list_scope.

(** C3, the failing input.  A loud waveform of 22050 samples (one second
    at 22050 Hz) analysed as the episode from 0 to 1 s: librosa's envelope
    has [1 + 22050 // 512 = 44] frames, no frame is silent, and the single
    unit returned ends at [44 * 512 / 22050] s, about 1.0217 s, after the
    end of the episode. *)
Lemma unit_ends_after_episode :
  let y := repeat 1 22050 in
  let episode_start_time := 0 in
  let episode_end_time := 1 in
  map (fun u => (Qred (start_time u), Qred (end_time u), is_voiced u))
      (detect_units_in_episode reference.lib default y
                               episode_start_time episode_end_time)
  = [(0, 11264 # 11025, true)]
  /\ episode_end_time < 11264 # 11025.
Proof.
  cbv zeta. split; [vm_compute; reflexivity | reflexivity].
Qed.

(** C6, as amended.  [_classify_voicing] returns voiced exactly when the
    audio has at least [0.02 * sr] samples (20 ms), its mean zero-crossing
    rate is below 0.1 and its RMS energy is at least 0.01. *)
Theorem classify_voicing_iff (lib : SignalLib) (self : CryUnitDetector)
        (audio : list Q) :
  _classify_voicing lib self audio = true
  <-> sr self * 0.02 <= len audio /\ low_zcr_and_enough_energy lib audio.
Proof.
  unfold _classify_voicing, low_zcr_and_enough_energy, mean_zcr, rms_energy.
  destruct (Qltb (len audio) (sr self * 0.02)) eqn:Elen.
  - apply Qltb_lt in Elen. split; [discriminate|]. intros [H _]. lra.
  - apply Qltb_ge in Elen.
    destruct (Qltb (np_sqrt lib _) 0.01) eqn:Een.
    + apply Qltb_lt in Een. split; [discriminate|]. intros [_ [_ H]]. lra.
    + apply Qltb_ge in Een. rewrite Qltb_lt. tauto.
Qed.

(** C6, the counterexample.  A constant waveform of 100 samples (4.5 ms):
    no zero crossing and an RMS energy of 1, yet unvoiced, because it is
    shorter than 20 ms.  With the minimum unit duration set to 10 ms, a
    waveform of 300 samples is one cry unit, returned as unvoiced for the
    same reason. *)
Lemma short_audio_is_unvoiced :
  let audio := repeat 1 100 in
  let y := repeat 1 300 in
  low_zcr_and_enough_energy reference.lib audio
  /\ _classify_voicing reference.lib default audio = false
  /\ low_zcr_and_enough_energy reference.lib y
  /\ map is_voiced
         (detect_units_in_episode reference.lib short_units y 0 (300 # 22050))
     = [false].
Proof.
  cbv zeta. unfold low_zcr_and_enough_energy.
  repeat split; vm_compute; congruence.
Qed.

(** C7.  [calculate_cry_unit_metrics] returns the mean duration of the
    voiced units (zero when there is none) and the sum of the durations of
    the unvoiced units (zero when there is none); both are zero for the
    empty list. *)
Theorem cry_unit_metrics_rollup (units : list CryUnit) :
  fst (calculate_cry_unit_metrics units)
  == mean_or_zero (voiced_durations units)
  /\ snd (calculate_cry_unit_metrics units)
     == sum_or_zero (unvoiced_durations units)
  /\ calculate_cry_unit_metrics [] = (0.0, 0.0).
Proof.
  unfold calculate_cry_unit_metrics, voiced_durations, unvoiced_durations.
  destruct units as [|u units]; [repeat split; reflexivity|].
  cbv beta iota zeta.
  generalize (filter (fun u0 => is_voiced u0) (u :: units)).
  generalize (filter (fun u0 => negb (is_voiced u0)) (u :: units)).
  intros unvoiced voiced. cbn [fst snd]. repeat split.
  - destruct voiced; reflexivity.
  - destruct unvoiced; reflexivity.
Qed.

(** C10.  When the slice of the waveform taken for the episode has no
    sample, [detect_units_in_episode] returns the empty list. *)
Theorem empty_range_gives_no_units (lib : SignalLib) (self : CryUnitDetector)
        (y : list Q) (episode_start_time episode_end_time : Q) :
  slice y (int (episode_start_time * sr self))
          (int (episode_end_time * sr self)) = [] ->
  detect_units_in_episode lib self y episode_start_time episode_end_time = [].
Proof.
  intro Hempty. unfold detect_units_in_episode. rewrite Hempty. reflexivity.
Qed.

Lemma empty_range_gives_no_units_witness :
  slice (repeat 1 100) (int (2 * sr default)) (int (1 * sr default)) = []
  /\ detect_units_in_episode reference.lib default (repeat 1 100) 2 1 = []
  /\ detect_units_in_episode reference.lib default (repeat 1 100) 1 2 = [].
Proof.
  split; [reflexivity|]. split.
  - exact (@empty_range_gives_no_units reference.lib default
             (repeat 1 100) 2 1 eq_refl).
  - exact (@empty_range_gives_no_units reference.lib default
             (repeat 1 100) 1 2 eq_refl).
Defined.

(** ** Where the units lie *)

Lemma enumerate_index_lt {A} (l : list A) : forall k i x,
  In (i, x) (combine (seq k (length l)) l) -> (i < k + length l)%nat.
Proof.
  induction l as [|a l IH]; intros k i x Hin; simpl in Hin; [contradiction|].
  destruct Hin as [Heq | Hin].
  - inversion Heq; subst. simpl. lia.
  - apply IH in Hin. simpl. lia.
Qed.

Lemma of_nat_le m n : (m <= n)%nat -> of_nat m <= of_nat n.
Proof.
  intro H. unfold of_nat. rewrite <- Zle_Qle. lia.
Qed.

Section Bounds.
Variable self : CryUnitDetector.
Variable frame_duration : Q.
Hypothesis frame_duration_nonneg : 0 <= frame_duration.

Lemma close_silence_on_grid n st i :
  silence_invariant frame_duration n st ->
  Forall (on_grid frame_duration n) (close_silence self frame_duration st i).
Proof.
  intros [Hsegs Hstart]. unfold close_silence.
  destruct (Qle_bool _ _); [|assumption].
  apply Forall_app. split; [assumption|].
  constructor; [|constructor]. unfold on_grid. simpl. split.
  - apply Qmult_le_0_compat; [apply of_nat_nonneg | assumption].
  - apply Qmult_le_compat_r; [apply of_nat_le; assumption | assumption].
Qed.

Lemma silence_step_invariant n st i b :
  (i < n)%nat -> silence_invariant frame_duration n st ->
  silence_invariant frame_duration n (silence_step self frame_duration st (i, b)).
Proof.
  intros Hi Hinv. pose proof Hinv as [Hsegs Hstart]. unfold silence_step.
  destruct b, (in_silence st); simpl; try exact Hinv.
  - split; simpl; [assumption | lia].
  - split; simpl; [apply close_silence_on_grid; assumption | assumption].
Qed.

Lemma silence_fold_invariant n (l : list (nat * bool)) : forall st,
  (forall i b, In (i, b) l -> (i < n)%nat) ->
  silence_invariant frame_duration n st ->
  silence_invariant frame_duration n (fold_left (silence_step self frame_duration) l st).
Proof.
  induction l as [|[i b] l IH]; intros st Hl Hinv; simpl; [assumption|].
  apply IH.
  - intros j c Hj. apply (Hl j c). right. assumption.
  - apply silence_step_invariant; [|assumption].
    apply (Hl i b). left. reflexivity.
Qed.

Lemma silence_segments_on_grid silence_frames :
  Forall (on_grid frame_duration (length silence_frames))
         (_find_silence_segments self silence_frames frame_duration).
Proof.
  unfold _find_silence_segments.
  match goal with
  | |- context [fold_left ?f ?l ?s] =>
      assert (Hinv : silence_invariant frame_duration (length silence_frames)
                                       (fold_left f l s))
  end.
  { apply silence_fold_invariant.
    - intros i b Hin. apply enumerate_index_lt in Hin. simpl in Hin. lia.
    - split; simpl; [constructor | lia]. }
  destruct (in_silence _).
  - apply close_silence_on_grid. assumption.
  - apply Hinv.
Qed.

Lemma boundaries_loop_within total silence_segments :
  forall boundaries current_start,
  Forall (fun seg => 0 <= snd seg /\ fst seg <= total) silence_segments ->
  Forall (within total) boundaries ->
  0 <= current_start ->
  Forall (within total)
         (boundaries_loop silence_segments boundaries current_start total).
Proof.
  induction silence_segments as [|[s e] segs IH];
    intros boundaries current_start Hsegs Hb Hcs; simpl.
  - destruct (Qltb current_start total) eqn:E; [|assumption].
    apply Forall_app. split; [assumption|].
    constructor; [|constructor]. split; simpl; [assumption | lra].
  - inversion Hsegs as [|? ? [He Hs] Hsegs']; subst. simpl in He, Hs.
    apply IH; [assumption | | assumption].
    destruct (Qltb current_start s); [|assumption].
    apply Forall_app. split; [assumption|].
    constructor; [|constructor]. split; simpl; assumption.
Qed.

Lemma unit_boundaries_within total silence_segments :
  0 <= total ->
  Forall (fun seg => 0 <= snd seg /\ fst seg <= total) silence_segments ->
  Forall (within total)
         (_determine_unit_boundaries silence_segments total).
Proof.
  intros Htotal Hsegs. unfold _determine_unit_boundaries.
  destruct silence_segments as [|seg segs].
  - constructor; [|constructor]. split; simpl; lra.
  - apply boundaries_loop_within; [assumption | constructor | lra].
Qed.
End Bounds.

Lemma unit_of_boundary_within lib self episode_audio energy start fd total b :
  within total b ->
  Forall (unit_within start (start + total))
         (unit_of_boundary lib self episode_audio energy start fd b).
Proof.
  intros [Ha Hb]. destruct b as [unit_start unit_end]. simpl in Ha, Hb.
  unfold unit_of_boundary.
  destruct (Qltb _ _); [constructor|].
  destruct (length _ =? 0)%nat; [constructor|].
  constructor; [|constructor]. unfold unit_within. simpl.
  repeat split; lra.
Qed.

(** Every unit starts no earlier than the episode and ends no later than
    the envelope does, counted from the start of the episode. *)
Theorem units_within_the_envelope
        (lib : SignalLib) (self : CryUnitDetector) (y : list Q)
        (episode_start_time episode_end_time : Q) :
  0 < sr self ->
  let audio := episode_audio self y episode_start_time episode_end_time in
  Forall (unit_within episode_start_time
                      (episode_start_time + envelope_duration lib self audio))
         (detect_units_in_episode lib self y
                                  episode_start_time episode_end_time).
Proof.
  intros Hsr audio. unfold detect_units_in_episode.
  fold (episode_audio self y episode_start_time episode_end_time).
  fold audio. destruct (length audio =? 0)%nat; [constructor|].
  cbv zeta. fold (envelope lib audio). set (energy := envelope lib audio).
  fold (envelope_duration lib self audio).
  assert (Hfd : 0 <= 512 / sr self).
  { apply Qle_shift_div_l; [assumption | lra]. }
  assert (Htotal : 0 <= envelope_duration lib self audio).
  { unfold envelope_duration. apply Qmult_le_0_compat; [|assumption].
    apply of_nat_nonneg. }
  apply Forall_flat_map.
  eapply Forall_impl; [intros b Hb; apply unit_of_boundary_within; exact Hb|].
  apply unit_boundaries_within; [assumption|].
  pose proof (silence_segments_on_grid self Hfd
                (map (fun e => Qltb e (silence_threshold self)) energy)) as H.
  rewrite length_map in H. exact H.
Qed.

Lemma units_within_the_envelope_witness :
  0 < sr default
  /\ Forall (unit_within 0 (0 + envelope_duration reference.lib default
                                   (episode_audio default (repeat 1 22050)
                                                  0 1)))
            (detect_units_in_episode reference.lib default
                                     (repeat 1 22050) 0 1).
Proof.
  assert (H : 0 < sr default) by reflexivity.
  split; [exact H|].
  exact (@units_within_the_envelope reference.lib default
           (repeat 1 22050) 0 1 H).
Defined.

(** Scenario C: half a second of sound, 0.2 s of silence, half a second of
    sound, analysed as one episode of 1.2 s, gives two units, one on each
    side of the silence. *)
Example silence_splits_the_episode_in_two :
  let y := repeat 1 11025 ++ repeat 0 4410 ++ repeat 1 11025 in
  map (fun u => (Qred (start_time u), Qred (end_time u), is_voiced u))
      (detect_units_in_episode reference.lib default y 0 1.2)
  = [(0, 256 # 441, true); (1024 # 1575, 13312 # 11025, true)].
Proof.
  vm_compute. reflexivity.
Qed.

(** ** Empty ranges *)

Lemma slice_reversed {A} (l : list A) a b :
  (0 <= b <= a)%Z -> slice l a b = [].
Proof.
  intros [Hb Hab]. unfold slice, clamp_index. cbv zeta.
  destruct (Z.ltb_spec a 0); [lia|]. destruct (Z.ltb_spec b 0); [lia|].
  replace (Z.to_nat _) with 0%nat by lia. reflexivity.
Qed.

Lemma slice_past_the_end {A} (l : list A) a b :
  (Z.of_nat (length l) <= a)%Z -> slice l a b = [].
Proof.
  intro Ha. unfold slice, clamp_index. cbv zeta.
  destruct (Z.ltb_spec a 0); [lia|].
  rewrite (Z.min_r a) by lia. rewrite Nat2Z.id.
  rewrite skipn_all. apply firstn_nil.
Qed.

Lemma int_floor x : 0 <= x -> int x = Qfloor x.
Proof.
  destruct x as [n d]. unfold Qle, int, Qfloor. simpl. intro H.
  apply Z.quot_div_nonneg; lia.
Qed.

Lemma int_nonneg x : 0 <= x -> (0 <= int x)%Z.
Proof.
  intro H. rewrite int_floor by assumption.
  change 0%Z with (Qfloor 0). apply Qfloor_resp_le. assumption.
Qed.

Lemma int_monotone x y : 0 <= x -> x <= y -> (int x <= int y)%Z.
Proof.
  intros Hx Hxy. rewrite !int_floor by lra. apply Qfloor_resp_le. assumption.
Qed.

(** The two ranges the claim names: an episode that ends, at a time that is
    not negative, no later than it starts, and an episode that starts at or
    after the last sample. *)
Theorem reversed_or_late_range_gives_no_units
        (lib : SignalLib) (self : CryUnitDetector) (y : list Q)
        (episode_start_time episode_end_time : Q) :
  0 <= sr self ->
  (0 <= episode_end_time /\ episode_end_time <= episode_start_time)
  \/ (Z.of_nat (length y) <= int (episode_start_time * sr self))%Z ->
  detect_units_in_episode lib self y episode_start_time episode_end_time = [].
Proof.
  intros Hsr Hrange. unfold detect_units_in_episode.
  replace (slice y _ _) with (@nil Q); [reflexivity|]. symmetry.
  destruct Hrange as [[Hend Hle] | Hlate].
  - apply slice_reversed. split.
    + apply int_nonneg. apply Qmult_le_0_compat; assumption.
    + apply int_monotone.
      * apply Qmult_le_0_compat; assumption.
      * apply Qmult_le_compat_r; assumption.
  - apply slice_past_the_end. assumption.
Qed.

Lemma reversed_or_late_range_gives_no_units_witness :
  detect_units_in_episode reference.lib default (repeat 1 100) 3 2 = []
  /\ detect_units_in_episode reference.lib default (repeat 1 100) 1 2 = [].
Proof.
  split.
  - refine (@reversed_or_late_range_gives_no_units reference.lib default
              (repeat 1 100) 3 2 _ (or_introl (conj _ _)));
      unfold Qle; simpl; lia.
  - refine (@reversed_or_late_range_gives_no_units reference.lib default
              (repeat 1 100) 1 2 _ (or_intror _)).
    + unfold Qle; simpl; lia.
    + vm_compute. discriminate.
Defined.

End cry_unit_detector_facts.

(* ================================================================== *)
(** ** Facts about app/audio/acoustic_analyzer.py *)
(* ================================================================== *)

Module acoustic_analyzer_facts.

Import PyFloat PyDict acoustic_analyzer properties.
Open Scope list_scope.
Section Statistics.
Variable np : Numpy.

(** The list comprehension keeps the defined samples, in order. *)
Lemma values_of_defined getattr features_list :
  values_of getattr features_list = defined_samples getattr features_list.
Proof.
  unfold values_of. induction features_list as [|f l IH]; simpl.
  - reflexivity.
  - rewrite IH. destruct (getattr f); reflexivity.
Qed.



Lemma defined_samples_all_absent getattr features_list :
  Forall (fun f => getattr f = None) features_list ->
  defined_samples getattr features_list = [].
Proof.
  induction 1 as [|f l Hf _ IH]; simpl; [reflexivity|].
  rewrite Hf. exact IH.
Qed.

Lemma statistics_lookup features_list :
  Forall (fun pg : string * (AcousticFeatures -> option float) =>
            get (compute_statistics np features_list) (fst pg)
            = Some (statistics_of np (defined_samples (snd pg) features_list)))
         params.
Proof.
  unfold compute_statistics, params.
  repeat constructor; simpl; rewrite values_of_defined; reflexivity.
Qed.
End Statistics.

Lemma count_le cond features_list :
  (count cond features_list <= length features_list)%nat.
Proof.
  unfold count. induction features_list as [|f l IH]; simpl; [lia|].
  destruct (cond f); simpl; lia.
Qed.

Lemma count_none cond features_list :
  Forall (fun f => cond f = false) features_list ->
  count cond features_list = 0%nat.
Proof.
  unfold count. induction 1 as [|f l Hf _ IH]; simpl; [reflexivity|].
  rewrite Hf. exact IH.
Qed.

(** The four percentages, from the counts. *)
Lemma special_parameters_of_counts f l thr :
  let features_list := f :: l in
  let total := length features_list in
  compute_special_parameters features_list thr
  = {| high_pitch_pct :=
         rounded_pct (count (is_high_pitch thr) features_list) total;
       hyper_phonation_pct :=
         rounded_pct (count is_hyper_phonation features_list) total;
       voiced_pct := rounded_pct (voiced_count features_list) total;
       unvoiced_pct := rounded_pct (unvoiced_count features_list) total |}.
Proof.
  reflexivity.
Qed.

Lemma exact_pct_complement n total :
  (n <= total)%nat -> (0 < total)%nat ->
  (exact_pct n total + exact_pct (total - n) total == 100)%Q.
Proof.
  intros Hle Hpos. unfold exact_pct, Py.of_nat.
  rewrite Nat2Z.inj_sub by assumption.
  unfold Z.sub. rewrite inject_Z_plus, inject_Z_opp.
  assert (Ht : ~ (inject_Z (Z.of_nat total) == 0)%Q).
  { intro H. unfold Qeq in H. simpl in H. lia. }
  field. exact Ht.
Qed.

(** ** The claims about the acoustic analyser *)

(** C4, as amended.  For a non-empty list of frames, [voiced_pct] and
    [unvoiced_pct] are the percentages of [voiced_count] and of
    [total_frames - voiced_count], each computed in binary64 and rounded to
    two decimals on its own; the two counts add up to [total_frames], so the
    exact percentages add up to 100. *)
Theorem voiced_unvoiced_from_complementary_counts
        (features_list : list AcousticFeatures) (thr : float) :
  features_list <> [] ->
  let r := compute_special_parameters features_list thr in
  let total := length features_list in
  voiced_pct r = rounded_pct (voiced_count features_list) total
  /\ unvoiced_pct r = rounded_pct (unvoiced_count features_list) total
  /\ (voiced_count features_list + unvoiced_count features_list = total)%nat
  /\ (exact_pct (voiced_count features_list) total
      + exact_pct (unvoiced_count features_list) total == 100)%Q.
Proof.
  intro Hne. destruct features_list as [|f l]; [congruence|].
  cbv zeta. rewrite special_parameters_of_counts. cbv zeta.
  pose proof (count_le is_voiced_frame (f :: l)) as Hle.
  unfold unvoiced_count, voiced_count.
  repeat split.
  - lia.
  - apply exact_pct_complement; [assumption | simpl; lia].
Qed.

Lemma voiced_unvoiced_from_complementary_counts_witness :
  frames 1 3 <> []
  /\ (let r := compute_special_parameters (frames 1 3) 500 in
      voiced_pct r = rounded_pct 1 3
      /\ unvoiced_pct r = rounded_pct 2 3
      /\ (exact_pct 1 3 + exact_pct 2 3 == 100)%Q).
Proof.
  assert (H : frames 1 3 <> []) by discriminate.
  split; [exact H|].
  pose proof (@voiced_unvoiced_from_complementary_counts (frames 1 3) 500 H)
    as (Hv & Hu & _ & He).
  exact (conj Hv (conj Hu He)).
Defined.

(** C4, the counterexample.  With 23 voiced frames out of 160 the exact
    percentages are 14.375 and 85.625; binary64 gives 14.374999999999998
    for the first, the two round to 14.37 and 85.62, and their sum is
    99.99000000000001.  With 67 voiced frames out of 160 the two round to
    41.88 and 58.13, and their sum is 100.01. *)
Lemma voiced_plus_unvoiced_is_not_100 :
  let r := compute_special_parameters (frames 23 160) 500 in
  let r' := compute_special_parameters (frames 67 160) 500 in
  length (frames 23 160) = 160%nat
  /\ voiced_pct r = (1437 / 100)%float
  /\ unvoiced_pct r = (8562 / 100)%float
  /\ (voiced_pct r + unvoiced_pct r =? 100)%float = false
  /\ (voiced_pct r + unvoiced_pct r <? 100)%float = true
  /\ voiced_pct r' = (4188 / 100)%float
  /\ unvoiced_pct r' = (5813 / 100)%float
  /\ (100 <? voiced_pct r' + unvoiced_pct r')%float = true.
Proof.
  cbv zeta. repeat split; vm_compute; reflexivity.
Qed.



(** Absent samples are left out, not counted as zero: the mean pitch of
    300 Hz, absent, 500 Hz is 400 Hz. *)
Example mean_skips_absent_samples :
  option_map mean
    (get (compute_statistics reference_numpy.np
            [frame_with_f0 (Some 300%float); frame_with_f0 None;
             frame_with_f0 (Some 500%float)]) "f0"%string)
  = Some (Some 400%float).
Proof.
  vm_compute. reflexivity.
Qed.

End acoustic_analyzer_facts.

(* ================================================================== *)
(** ** Facts about app/tasks/analysis_tasks.py *)
(* ================================================================== *)

Module analysis_tasks_facts.

Import Py PyDict analysis_tasks properties.
Open Scope list_scope.

(** *** Computations that only report progress *)

Lemma keeps_ret {A} (a : A) : keeps_tables (ret a).
Proof.
  intros w r w' H. inversion H; subst. split; reflexivity.
Qed.

Lemma keeps_call {A} (x : Result A) : keeps_tables (call x).
Proof.
  intros w r w' H. inversion H; subst. split; reflexivity.
Qed.

Lemma keeps_update_state p msg : keeps_tables (update_state p msg).
Proof.
  intros w r w' H. inversion H; subst. split; reflexivity.
Qed.

Lemma keeps_bind {A B} (m : M A) (k : A -> M B) :
  keeps_tables m -> (forall a, keeps_tables (k a)) -> keeps_tables (bind m k).
Proof.
  intros Hm Hk w r w' H. unfold bind in H.
  destruct (m w) as [[a|e] w1] eqn:Em.
  - destruct (Hm _ _ _ Em) as [Hs Hd]. destruct (Hk a _ _ _ H) as [Hs' Hd'].
    split; congruence.
  - inversion H; subst. exact (Hm _ _ _ Em).
Qed.

Create HintDb keeps.

#[local] Hint Resolve keeps_ret keeps_call keeps_update_state : keeps.

Lemma keeps_callbacks (cb : Q * string -> M unit) l :
  (forall sm, keeps_tables (cb sm)) ->
  keeps_tables (fold_right (fun sm k => bind (cb sm) (fun _ => k)) (ret tt) l).
Proof.
  intro Hcb. induction l as [|sm l IH]; simpl.
  - apply keeps_ret.
  - apply keeps_bind; [apply Hcb | intros _; exact IH].
Qed.

Section Task.
Variable an : Analysers.
Variable file_id : Z.

Lemma keeps_analyze_episode audio_file y_full total i episode acc :
  keeps_tables (analyze_episode an audio_file y_full total i episode acc).
Proof.
  unfold analyze_episode.
  destruct (analyze_segment an _ _ _) as [callbacks features_or_error].
  apply keeps_bind.
  { apply keeps_callbacks. intro sm. apply keeps_update_state. }
  intros _.
  repeat (apply keeps_bind; [auto with keeps | intros ?]).
  match goal with
  | |- keeps_tables (let (_, _) := ?p in _) => destruct p
  end.
  apply keeps_ret.
Qed.

Lemma keeps_episode_loop audio_file y_full total episodes :
  forall i acc,
  keeps_tables (episode_loop an audio_file y_full total i episodes acc).
Proof.
  induction episodes as [|episode rest IH]; intros i acc; simpl.
  - apply keeps_ret.
  - apply keeps_bind; [apply keeps_analyze_episode | intros acc'; apply IH].
Qed.

(** *** What the body of the episode loop returns *)

Lemma callbacks_return (f : Q * string -> M unit -> M unit) l :
  (forall sm k w, (forall w0, fst (k w0) = Ok tt) -> fst (f sm k w) = Ok tt) ->
  forall w, fst (fold_right f (ret tt) l w) = Ok tt.
Proof.
  intro Hf. induction l as [|sm l IH]; intro w; simpl; [reflexivity|].
  apply Hf. exact IH.
Qed.

Lemma analyze_episode_outcome audio_file y_full total i episode acc w :
  match episode_raises an audio_file y_full episode with
  | Some e =>
      fst (analyze_episode an audio_file y_full total i episode acc w)
      = Raise e
  | None =>
      exists acc',
      fst (analyze_episode an audio_file y_full total i episode acc w)
      = Ok acc'
  end.
Proof.
  unfold analyze_episode, episode_raises.
  destruct (analyze_segment an _ _ _) as [callbacks features_or_error].
  cbv zeta. unfold bind, call, update_state, ret.
  match goal with
  | |- context [fold_right ?f ?z callbacks w] =>
      assert (Hcb : fst (fold_right f z callbacks w) = Ok tt)
        by (apply (callbacks_return f); intros sm k w0 Hk; apply Hk);
      destruct (fold_right f z callbacks w) as [r w1]
  end.
  simpl in Hcb. subst r. simpl snd.
  destruct features_or_error as [features|e]; [|reflexivity].
  destruct (compute_statistics an features); [|reflexivity].
  destruct (compute_special_parameters an features); [|reflexivity].
  destruct (detect_units_in_episode an y_full _ _) as [cry_units|e];
    [|reflexivity].
  destruct (calculate_cry_unit_metrics an cry_units) as [[c u]|e];
    [|reflexivity].
  eexists. reflexivity.
Qed.

(** The loop raises what the first failing episode raises. *)
Lemma episode_loop_raises audio_file y_full total before episode after e :
  Forall (fun ep => episode_raises an audio_file y_full ep = None) before ->
  episode_raises an audio_file y_full episode = Some e ->
  forall i acc w,
  fst (episode_loop an audio_file y_full total i
                    (before ++ episode :: after) acc w)
  = Raise e.
Proof.
  intros Hbefore Hep. induction Hbefore as [|ep before Hok _ IH];
    intros i acc w; simpl; unfold bind at 1.
  - pose proof (analyze_episode_outcome audio_file y_full total i episode
                                        acc w) as H.
    rewrite Hep in H.
    destruct (analyze_episode _ _ _ _ _ _ _ w) as [r w1]. simpl in H.
    subst r. reflexivity.
  - pose proof (analyze_episode_outcome audio_file y_full total i ep acc w)
      as H.
    rewrite Hok in H. destruct H as [acc' H].
    destruct (analyze_episode _ _ _ _ _ _ _ w) as [r w1]. simpl in H.
    subst r. apply IH.
Qed.

(** *** The [except] block *)

Lemma find_marked s (files : list AudioFile) audio_file :
  find (fun f => (id f =? file_id)%Z) files = Some audio_file ->
  find (fun f => (id f =? file_id)%Z)
       (map (fun f => if (id f =? file_id)%Z
                      then {| id := id f; file_path := file_path f;
                              status := s |}
                      else f) files)
  = Some {| id := id audio_file; file_path := file_path audio_file;
            status := s |}.
Proof.
  induction files as [|f files IH]; simpl; [discriminate|].
  destruct (id f =? file_id)%Z eqn:E; simpl; rewrite E.
  - intro H. inversion H; subst. reflexivity.
  - exact IH.
Qed.

Lemma except_block_marks_failed e w audio_file :
  find (fun f => (id f =? file_id)%Z) (audio_files (session w))
  = Some audio_file ->
  exists w',
    except_block file_id e w = (Raise e, w')
    /\ status_of (database w') file_id = Some "failed"%string
    /\ analysis_results (database w') = analysis_results (session w)
    /\ analysis_results (session w') = analysis_results (session w).
Proof.
  intro Hfind. unfold except_block, bind, query_first. rewrite Hfind.
  simpl. eexists. split; [reflexivity|]. simpl.
  split; [|split; reflexivity].
  unfold status_of. simpl.
  rewrite (find_marked "failed" _ Hfind). reflexivity.
Qed.

(** What remains to be shown once the [try] block has raised [e] in a
    world whose session is the one marked as processing. *)
Lemma failed_after_raise e w w1 audio_file :
  session w = database w ->
  find (fun f => (id f =? file_id)%Z) (audio_files (session w))
  = Some audio_file ->
  try_block an file_id w = (Raise e, w1) ->
  session w1 = marked "processing" file_id (session w) ->
  job_failed_with an file_id w e.
Proof.
  intros Hclean Hfind Htry Hsession.
  assert (Hfind1 : find (fun f => (id f =? file_id)%Z)
                        (audio_files (session w1))
                   = Some {| id := id audio_file;
                             file_path := file_path audio_file;
                             status := "processing" |}).
  { rewrite Hsession. simpl. apply find_marked. assumption. }
  destruct (except_block_marks_failed e w1 Hfind1)
    as (w' & Hexc & Hstatus & Hdb & Hses).
  exists w'. unfold analyze_audio_file, try_except. rewrite Htry.
  rewrite Hsession in Hdb, Hses. simpl in Hdb, Hses.
  rewrite <- Hclean. repeat split; assumption.
Qed.

End Task.

(** ** The claim about the job *)

(** C9.  The file is in the session and nothing is pending.  If the
    detection raises [e], or the loading of the audio does, or, all
    episodes before it having been analysed, one of the calls made for an
    episode does, then [analyze_audio_file] raises [e], the database holds
    the file as failed, and no analysis result has been written. *)
Theorem failure_aborts_the_job
        (an : Analysers) (file_id : Z) (w : World) (audio_file : AudioFile) :
  session w = database w ->
  find (fun f => (id f =? file_id)%Z) (audio_files (session w))
  = Some audio_file ->
  (forall e,
      detect_from_file an (file_path audio_file) = Raise e ->
      job_failed_with an file_id w e)
  /\ (forall episodes e,
         detect_from_file an (file_path audio_file) = Ok episodes ->
         librosa_load an (file_path audio_file) = Raise e ->
         job_failed_with an file_id w e)
  /\ (forall before episode after y_full e,
         detect_from_file an (file_path audio_file)
         = Ok (before ++ episode :: after) ->
         librosa_load an (file_path audio_file) = Ok y_full ->
         Forall (fun ep => episode_raises an audio_file y_full ep = None)
                before ->
         episode_raises an audio_file y_full episode = Some e ->
         job_failed_with an file_id w e).
Proof.
  intros Hclean Hfind. split; [|split].
  - intros e Hdetect.
    assert (H : exists w1, try_block an file_id w = (Raise e, w1)
                           /\ session w1
                              = marked "processing" file_id (session w)).
    { unfold try_block, bind, query_first. rewrite Hfind. simpl.
      unfold call. rewrite Hdetect. eexists. split; reflexivity. }
    destruct H as (w1 & Htry & Hses).
    eapply failed_after_raise; eassumption.
  - intros episodes e Hdetect Hload.
    assert (H : exists w1, try_block an file_id w = (Raise e, w1)
                           /\ session w1
                              = marked "processing" file_id (session w)).
    { unfold try_block, bind, query_first. rewrite Hfind. simpl.
      unfold call. rewrite Hdetect. simpl. rewrite Hload.
      eexists. split; reflexivity. }
    destruct H as (w1 & Htry & Hses).
    eapply failed_after_raise; eassumption.
  - intros before episode after y_full e Hdetect Hload Hbefore Hep.
    assert (H : exists w1, try_block an file_id w = (Raise e, w1)
                           /\ session w1
                              = marked "processing" file_id (session w)).
    { unfold try_block, bind, query_first. rewrite Hfind. simpl.
      unfold call. rewrite Hdetect. simpl. rewrite Hload.
      match goal with
      | |- context [episode_loop an audio_file y_full ?n ?i ?l ?acc ?w0] =>
          pose proof (@episode_loop_raises an audio_file y_full n before
                        episode after e Hbefore Hep i acc w0) as Hraise;
          destruct (episode_loop an audio_file y_full n i l acc w0)
            as [r w1] eqn:Eloop
      end.
      simpl in Hraise. subst r.
      destruct (@keeps_episode_loop _ _ _ _ _ _ _ _ _ _ Eloop) as [Hs _].
      exists w1. split; [reflexivity|]. rewrite Hs. reflexivity. }
    destruct H as (w1 & Htry & Hses).
    eapply failed_after_raise; eassumption.
Qed.

(** Scenario E: the failure is raised while the second of three episodes
    is analysed. *)
Lemma failure_aborts_the_job_witness :
  session uploaded_world = database uploaded_world
  /\ episode_raises scenario_E uploaded_file [] (episode_at 0 2) = None
  /\ episode_raises scenario_E uploaded_file [] (episode_at 10 12)
     = Some simulated_failure
  /\ job_failed_with scenario_E 7 uploaded_world simulated_failure.
Proof.
  assert (H1 : episode_raises scenario_E uploaded_file [] (episode_at 0 2)
               = None) by (vm_compute; reflexivity).
  assert (H2 : episode_raises scenario_E uploaded_file [] (episode_at 10 12)
               = Some simulated_failure) by reflexivity.
  repeat split; try assumption.
  exact (proj2 (proj2 (@failure_aborts_the_job scenario_E 7 uploaded_world
                         uploaded_file eq_refl eq_refl))
               [episode_at 0 2] (episode_at 10 12) [episode_at 20 22] []
               simulated_failure eq_refl eq_refl
               (Forall_cons _ H1 (Forall_nil _)) H2).
Defined.

End analysis_tasks_facts.
(* ================================================================== *)
(** ** More facts about app/audio/cry_detector.py *)
(* ================================================================== *)

Module cry_detector_more.

Import Py Py_facts cry_detector properties more_properties.
Import cry_detector_facts.
Open Scope Q_scope.
Open Scope list_scope.

Lemma of_nat_lt m n : (m < n)%nat -> of_nat m < of_nat n.
Proof.
  intro H. unfold of_nat. rewrite <- Zlt_Qlt. lia.
Qed.

Lemma strongly_sorted_snoc {A} (R : A -> A -> Prop) l y :
  StronglySorted R l -> Forall (fun x => R x y) l ->
  StronglySorted R (l ++ [y]).
Proof.
  induction 1 as [|x l Hl IH Hx]; intro Hy; simpl.
  - constructor; constructor.
  - inversion Hy as [|? ? Hxy Hy']; subst. constructor.
    + apply IH. assumption.
    + apply Forall_app. split; [assumption|]. constructor; [assumption|].
      constructor.
Qed.

(** *** The energy summed over a run *)



Section Runs.
Variable self : CryDetector.
Variable is_cry : list bool.
Variable energy : list Q.
Variable time_offset : Q.
Hypothesis sr_positive : 0 < sr self.











(** *** Every long run is reported *)

Lemma maximal_run_start a a' b :
  maximal_run is_cry a b ->
  (a' < b)%nat ->
  (forall j, (a' <= j < b)%nat -> nth j is_cry false = true) ->
  (a' = 0%nat \/ nth (a' - 1) is_cry false = false) ->
  a = a'.
Proof.
  intros (Hab & Hcry & Hleft & _) Ha' Hcry' Hleft'.
  destruct (Nat.lt_trichotomy a a') as [Hlt | [Heq | Hgt]];
    [exfalso | exact Heq | exfalso].
  - destruct Hleft' as [H0 | Hf]; [lia|].
    rewrite Hcry in Hf by lia. discriminate.
  - destruct Hleft as [H0 | Hf]; [lia|].
    rewrite Hcry' in Hf by lia. discriminate.
Qed.











End Runs.





(** *** Merging is grouping at the large gaps *)

Lemma groups_head self s rest :
  exists g gs, groups self (s :: rest) = (s :: g) :: gs.
Proof.
  simpl. destruct (groups self rest) as [|[|s' g] gs]; eauto.
  destruct (Qle_bool _ _); eauto.
Qed.

Lemma tight_snoc self g s :
  g <> [] -> tight self g ->
  Qle_bool (seg_start s - seg_end (last g (0, 0, 0))) (max_gap self) = true ->
  tight self (g ++ [s]).
Proof.
  induction g as [|x g IH]; intros Hne Ht Hgap; [congruence|].
  destruct g as [|x' g].
  - simpl in *. split; [assumption | exact I].
  - destruct Ht as [Hx Ht]. split; [exact Hx|].
    apply IH; [discriminate | exact Ht | exact Hgap].
Qed.

(** A tight group in front of a large gap is a group of its own; in front
    of a small gap it joins the group that follows. *)
Lemma groups_app self g : forall s rest,
  g <> [] -> tight self g ->
  groups self (g ++ s :: rest)
  = if Qle_bool (seg_start s - seg_end (last g (0, 0, 0))) (max_gap self)
    then match groups self (s :: rest) with
         | g' :: gs => (g ++ g') :: gs
         | [] => [g]
         end
    else g :: groups self (s :: rest).
Proof.
  induction g as [|x g IH]; intros s rest Hne Ht; [congruence|].
  destruct g as [|x' g].
  - change (([x] ++ s :: rest)) with (x :: s :: rest).
    destruct (groups_head self s rest) as (g' & gs & Heq).
    change (groups self (x :: s :: rest))
      with (match groups self (s :: rest) with
            | (s' :: g) :: gs =>
                if Qle_bool (seg_start s' - seg_end x) (max_gap self)
                then (x :: s' :: g) :: gs
                else [x] :: (s' :: g) :: gs
            | _ => [[x]]
            end).
    rewrite Heq. simpl last.
    destruct (Qle_bool _ _); reflexivity.
  - destruct Ht as [Hx Ht].
    assert (Hne' : x' :: g <> []) by discriminate.
    specialize (IH s rest Hne' Ht).
    change (groups self ((x :: x' :: g) ++ s :: rest))
      with (match groups self ((x' :: g) ++ s :: rest) with
            | (s' :: g0) :: gs =>
                if Qle_bool (seg_start s' - seg_end x) (max_gap self)
                then (x :: s' :: g0) :: gs
                else [x] :: (s' :: g0) :: gs
            | _ => [[x]]
            end).
    rewrite IH.
    change (last (x :: x' :: g) (0, 0, 0)) with (last (x' :: g) (0, 0, 0)).
    destruct (groups_head self s rest) as (g' & gs & Heq). rewrite Heq.
    destruct (Qle_bool (seg_start s - seg_end (last (x' :: g) (0, 0, 0)))
                       (max_gap self)).
    + cbn [app]. cbv iota. rewrite Hx. reflexivity.
    + cbv iota. rewrite Hx. reflexivity.
Qed.

Lemma groups_tight self g :
  g <> [] -> tight self g -> groups self g = [g].
Proof.
  induction g as [|x g IH]; intros Hne Ht; [congruence|].
  destruct g as [|x' g]; [reflexivity|].
  destruct Ht as [Hx Ht].
  change (groups self (x :: x' :: g))
    with (match groups self (x' :: g) with
          | (s' :: g0) :: gs =>
              if Qle_bool (seg_start s' - seg_end x) (max_gap self)
              then (x :: s' :: g0) :: gs
              else [x] :: (s' :: g0) :: gs
          | _ => [[x]]
          end).
  rewrite IH by (discriminate || assumption). rewrite Hx. reflexivity.
Qed.

Lemma last_snoc {A} (l : list A) x d : last (l ++ [x]) d = x.
Proof.
  induction l as [|a l IH]; [reflexivity|].
  simpl. destruct (l ++ [x]) eqn:E; [|exact IH].
  destruct l; discriminate.
Qed.

Lemma merge_loop_groups self segs : forall g,
  g <> [] -> tight self g ->
  merge_loop self segs [] (seg_start (hd (0, 0, 0) g))
             (seg_end (last g (0, 0, 0))) (map seg_conf g)
  = map episode_of_group (groups self (g ++ segs)).
Proof.
  induction segs as [|[[s e] c] segs IH]; intros g Hne Ht.
  - rewrite app_nil_r. rewrite groups_tight by assumption. reflexivity.
  - rewrite merge_loop_cons. rewrite groups_app by assumption.
    change (seg_start (s, e, c)) with s.
    destruct (Qle_bool (s - seg_end (last g (0, 0, 0))) (max_gap self))
      eqn:Egap.
    + destruct (groups_head self (s, e, c) segs) as (g' & gs & Heq).
      assert (Hne' : g ++ [(s, e, c)] <> [])
        by (destruct g; discriminate).
      specialize (IH (g ++ [(s, e, c)]) Hne'
                     (@tight_snoc self g (s, e, c) Hne Ht Egap)).
      rewrite last_snoc, map_app in IH. simpl map in IH.
      change (seg_end (s, e, c)) with e in IH.
      change (seg_conf (s, e, c)) with c in IH.
      replace (hd (0, 0, 0) (g ++ [(s, e, c)])) with (hd (0, 0, 0) g) in IH
        by (destruct g; [congruence | reflexivity]).
      rewrite IH. rewrite <- app_assoc. simpl app.
      rewrite groups_app by assumption.
      change (seg_start (s, e, c)) with s. rewrite Egap. reflexivity.
    + assert (IH' : merge_loop self segs [] s e [c]
                    = map episode_of_group
                          (groups self ((s, e, c) :: segs))).
      { apply (IH [(s, e, c)]); [discriminate | exact I]. }
      rewrite IH'. reflexivity.
Qed.

(** [_merge_segments_to_episodes] groups the segments, sorted by start
    time, cutting exactly where a segment starts more than [max_gap] after
    the segment before it has ended; each group gives one episode, from the
    start of its first segment to the end of its last one, with the mean of
    the group's confidences. *)
Theorem merging_groups_at_large_gaps
        (self : CryDetector) (segments : list Segment) :
  _merge_segments_to_episodes self segments
  = map episode_of_group (groups self (sorted seg_start segments)).
Proof.
  unfold _merge_segments_to_episodes.
  destruct (sorted seg_start segments) as [|[[s0 e0] c0] rest];
    [reflexivity|].
  apply (@merge_loop_groups self rest [(s0, e0, c0)]);
    [discriminate | exact I].
Qed.

(** *** Confidence *)






(** *** A quiet recording *)

Lemma quiet_frames self energy : forall spectral_centroid,
  Forall (fun e => e <= energy_threshold self) energy ->
  Forall (eq false) (_is_cry_frame self energy spectral_centroid).
Proof.
  unfold _is_cry_frame.
  induction energy as [|e energy IH]; intros [|c cs] Hq; simpl;
    try constructor.
  - inversion Hq; subst. apply Qltb_ge in H1. rewrite H1. reflexivity.
  - inversion Hq; subst. apply IH. assumption.
Qed.

Lemma fold_step_quiet self energy time_offset (l : list bool) : forall k st,
  in_segment st = false ->
  Forall (eq false) l ->
  fold_left (step self energy time_offset) (combine (seq k (length l)) l) st
  = st.
Proof.
  induction l as [|c l IH]; intros k st Hin Hl; [reflexivity|].
  inversion Hl; subst. simpl. rewrite Hin. simpl. apply IH; assumption.
Qed.

Lemma quiet_chunk lib self y time_offset :
  quiet lib self y -> _detect_cry_segments lib self y time_offset = [].
Proof.
  intro Hq. unfold _detect_cry_segments. cbv zeta. unfold enumerate.
  rewrite fold_step_quiet;
    [reflexivity | reflexivity | apply quiet_frames; exact Hq].
Qed.

(** A recording none of whose frames is louder than the energy
    threshold has no episodes (and so has a recording of no chunks at
    all). *)
Theorem quiet_recording_has_no_episodes
        (lib : SignalLib) (self : CryDetector) (chunks : list (list Q)) :
  Forall (quiet lib self) chunks ->
  detect_from_file lib self chunks = [].
Proof.
  intro Hq. unfold detect_from_file.
  assert (Hnone : forall (l : list (nat * list Q)),
             Forall (fun ky => quiet lib self (snd ky)) l ->
             flat_map (fun ky : nat * list Q =>
                         _detect_cry_segments lib self (snd ky)
                           (of_nat (fst ky) * chunk_duration self)) l = []).
  { induction 1 as [|ky l Hky Hl IH]; [reflexivity|].
    simpl. rewrite quiet_chunk by assumption. exact IH. }
  cbv zeta. rewrite Hnone; [reflexivity|].
  apply Forall_forall. intros [k y] Hin. simpl.
  unfold enumerate in Hin. apply in_combine_r in Hin.
  rewrite Forall_forall in Hq. apply Hq. exact Hin.
Qed.

Lemma quiet_recording_has_no_episodes_witness :
  Forall (quiet reference.lib default) [[0; 0; 0]; [0]]
  /\ detect_from_file reference.lib default [[0; 0; 0]; [0]] = [].
Proof.
  assert (H : Forall (quiet reference.lib default) [[0; 0; 0]; [0]]).
  { repeat constructor; vm_compute; discriminate. }
  split; [exact H|].
  exact (@quiet_recording_has_no_episodes reference.lib default _ H).
Defined.

End cry_detector_more.

(* ================================================================== *)
(** ** More facts about app/audio/cry_unit_detector.py *)
(* ================================================================== *)

Module cry_unit_detector_more.

Import Py Py_facts cry_unit_detector properties more_properties.
Import cry_unit_detector_facts.
Open Scope Q_scope.
Open Scope list_scope.

Section Silences.
Variable self : CryUnitDetector.
Variable frame_duration : Q.
Variable frames : list bool.
Hypothesis frame_duration_positive : 0 < frame_duration.

Lemma grid_lt a b :
  (a < b)%nat -> of_nat a * frame_duration < of_nat b * frame_duration.
Proof.
  intro H. apply Qmult_lt_compat_r; [assumption|].
  apply cry_detector_more.of_nat_lt. assumption.
Qed.

Lemma grid_le a b :
  (a <= b)%nat -> of_nat a * frame_duration <= of_nat b * frame_duration.
Proof.
  intro H. apply Qmult_le_compat_r; [apply of_nat_le; assumption | lra].
Qed.

(** Closing the open silence at frame [i]. *)
Lemma close_silence_run i st :
  silence_run_invariant self frame_duration frames i st ->
  in_silence st = true ->
  (i <= length frames)%nat ->
  (i = length frames \/ nth i frames false = false) ->
  spans_apart (close_silence self frame_duration st i)
  /\ Forall (spans_long_silence self frame_duration frames)
            (close_silence self frame_duration st i)
  /\ Forall (fun s => snd s < of_nat (S i) * frame_duration)
            (close_silence self frame_duration st i).
Proof.
  intros (Hsep & Hruns & Hopen) Hin Hlen Hright.
  rewrite Hin in Hopen.
  destruct Hopen as (Hstart & Hsil & Hleft & Hbefore).
  assert (Hold : Forall (fun s => snd s < of_nat (S i) * frame_duration)
                        (segments st)).
  { eapply Forall_impl; [|exact Hbefore]. intros s Hs. simpl in Hs.
    pose proof (@grid_le (silence_start st) (S i)) as H.
    assert (silence_start st <= S i)%nat by lia. specialize (H H0). lra. }
  unfold close_silence.
  destruct (Qle_bool (min_silence_duration self) _) eqn:Edur;
    [|split; [assumption | split; assumption]].
  apply Qle_bool_iff in Edur. split; [|split].
  - apply cry_detector_more.strongly_sorted_snoc; [assumption|].
    eapply Forall_impl; [|exact Hbefore]. intros s Hs. exact Hs.
  - apply Forall_app. split; [assumption|]. constructor; [|constructor].
    exists (silence_start st), i. repeat split; try assumption; try lia.
  - apply Forall_app. split; [assumption|]. constructor; [|constructor].
    simpl. apply grid_lt. lia.
Qed.

Lemma silence_step_run i st :
  (i < length frames)%nat ->
  silence_run_invariant self frame_duration frames i st ->
  silence_run_invariant self frame_duration frames (S i)
    (silence_step self frame_duration st (i, nth i frames false)).
Proof.
  intros Hi Hinv. pose proof Hinv as (Hsep & Hruns & Hopen).
  unfold silence_step, silence_run_invariant.
  destruct (nth i frames false) eqn:Esil;
    destruct (in_silence st) eqn:Hin;
    cbn [andb negb in_silence silence_start segments].
  - (* the silence goes on *)
    rewrite Hin. destruct Hopen as (Hstart & Hsil & Hleft & Hbefore).
    split; [assumption|]. split; [assumption|].
    repeat split; try assumption; try lia.
    intros j Hj. destruct (Nat.eq_dec j i) as [->|Hne]; [assumption|].
    apply Hsil. lia.
  - (* a silence starts *)
    destruct Hopen as (Hprev & Hbefore).
    split; [assumption|]. split; [assumption|].
    repeat split; try assumption; try lia.
    intros j Hj. replace j with i by lia. assumption.
  - (* the silence ends *)
    destruct (@close_silence_run i st Hinv Hin) as (H1 & H2 & H3);
      [lia | right; assumption |].
    split; [assumption|]. split; [assumption|].
    split; [right; replace (S i - 1)%nat with i by lia; assumption
           | assumption].
  - (* sound goes on *)
    rewrite Hin. destruct Hopen as (Hprev & Hbefore).
    split; [assumption|]. split; [assumption|].
    split; [right; replace (S i - 1)%nat with i by lia; assumption|].
    eapply Forall_impl; [|exact Hbefore]. intros s Hs. simpl in Hs.
    pose proof (@grid_lt i (S i)) as H.
    assert (i < S i)%nat by lia. specialize (H H0). lra.
Qed.

Lemma close_silence_keeps st b s :
  In s (segments st) -> In s (close_silence self frame_duration st b).
Proof.
  intro Hin. unfold close_silence.
  destruct (Qle_bool _ _); [apply in_or_app; left|]; assumption.
Qed.

Lemma close_silence_reports i st a :
  silence_run_invariant self frame_duration frames i st ->
  in_silence st = true ->
  maximal_run frames a i ->
  long_silence_reported self frame_duration
                        (close_silence self frame_duration st i) a i.
Proof.
  intros (_ & _ & Hopen) Hin Hrun Hlong. rewrite Hin in Hopen.
  destruct Hopen as (Hstart & Hsil & Hleft & _).
  assert (Ha : a = silence_start st)
    by (eapply cry_detector_more.maximal_run_start; eassumption).
  subst a. unfold close_silence.
  apply Qle_bool_iff in Hlong. rewrite Hlong.
  apply in_or_app; right; left; reflexivity.
Qed.

Lemma no_silence_ends_in_sound i st a :
  silence_run_invariant self frame_duration frames i st ->
  in_silence st = false ->
  maximal_run frames a i -> False.
Proof.
  intros (_ & _ & Hopen) Hin (Hab & Hsil & _). rewrite Hin in Hopen.
  destruct Hopen as ([H0 | Hf] & _); [lia|].
  rewrite Hsil in Hf by lia. discriminate.
Qed.

Lemma silence_step_reports i st :
  (i < length frames)%nat ->
  silence_run_invariant self frame_duration frames i st ->
  silences_reported_before self frame_duration frames i (segments st) ->
  silences_reported_before self frame_duration frames (S i)
    (segments (silence_step self frame_duration st (i, nth i frames false))).
Proof.
  intros Hi Hinv Hrep a b Hrun Hb.
  assert (Hcases : (b < i)%nat \/ b = i) by lia.
  unfold silence_step.
  destruct (nth i frames false) eqn:Esil;
    destruct (in_silence st) eqn:Hin;
    cbn [andb negb segments].
  - destruct Hcases as [Hlt | ->]; [apply Hrep; assumption|].
    destruct Hrun as (Hab & _ & _ & [Hend | Hend]); [lia | congruence].
  - destruct Hcases as [Hlt | ->]; [apply Hrep; assumption|].
    destruct Hrun as (Hab & _ & _ & [Hend | Hend]); [lia | congruence].
  - destruct Hcases as [Hlt | ->].
    + intro Hlong. apply close_silence_keeps.
      exact (Hrep a b Hrun Hlt Hlong).
    + apply close_silence_reports; assumption.
  - destruct Hcases as [Hlt | ->]; [apply Hrep; assumption|].
    exfalso. eapply no_silence_ends_in_sound; eassumption.
Qed.

Lemma silence_fold_run (l : list bool) : forall k st,
  (k + length l = length frames)%nat ->
  (forall j, (j < length l)%nat -> nth j l false = nth (k + j) frames false) ->
  silence_run_invariant self frame_duration frames k st ->
  silences_reported_before self frame_duration frames k (segments st) ->
  let st' := fold_left (silence_step self frame_duration)
                       (combine (seq k (length l)) l) st in
  silence_run_invariant self frame_duration frames (length frames) st'
  /\ silences_reported_before self frame_duration frames (length frames)
                              (segments st').
Proof.
  induction l as [|c l IH]; intros k st Hlen Hnth Hinv Hrep; simpl.
  - simpl in Hlen. rewrite Nat.add_0_r in Hlen. subst k. split; assumption.
  - simpl in Hlen.
    assert (Hc : c = nth k frames false).
    { specialize (Hnth 0%nat). simpl in Hnth. rewrite Nat.add_0_r in Hnth.
      apply Hnth. lia. }
    subst c. apply IH.
    + lia.
    + intros j Hj. specialize (Hnth (S j)). simpl in Hnth.
      rewrite Hnth by lia. f_equal. lia.
    + apply silence_step_run; [lia | assumption].
    + apply silence_step_reports; [lia | assumption | assumption].
Qed.

Lemma silence_segments_runs :
  let segs := _find_silence_segments self frames frame_duration in
  spans_apart segs
  /\ Forall (spans_long_silence self frame_duration frames) segs
  /\ (forall a b, maximal_run frames a b ->
                  long_silence_reported self frame_duration segs a b).
Proof.
  unfold _find_silence_segments, enumerate.
  match goal with
  | |- context [fold_left ?f ?l ?s] =>
      destruct (@silence_fold_run frames 0 s) as [Hinv Hrep]
  end.
  - reflexivity.
  - intros j _. reflexivity.
  - unfold silence_run_invariant. simpl.
    split; [constructor|]. split; [constructor|].
    split; [left; reflexivity | constructor].
  - intros a b _ Hb. lia.
  - cbv zeta in Hinv, Hrep. cbv zeta.
    match goal with
    | |- context [in_silence ?s] => set (st := s) in *
    end.
    destruct (in_silence st) eqn:Hin.
    + destruct (@close_silence_run (length frames) st Hinv Hin)
        as (H1 & H2 & _); [lia | left; reflexivity |].
      split; [assumption|]. split; [assumption|].
      intros a b Hrun.
      assert (Hcases : (b < length frames)%nat \/ b = length frames)
        by (destruct Hrun as (Hab & _); lia).
      destruct Hcases as [Hlt | ->].
      * intro Hlong. apply close_silence_keeps.
        exact (Hrep a b Hrun Hlt Hlong).
      * apply close_silence_reports; assumption.
    + pose proof Hinv as (H1 & H2 & _).
      split; [assumption|]. split; [assumption|].
      intros a b Hrun.
      assert (Hcases : (b < length frames)%nat \/ b = length frames)
        by (destruct Hrun as (Hab & _); lia).
      destruct Hcases as [Hlt | ->]; [apply Hrep; assumption|].
      exfalso. eapply no_silence_ends_in_sound; eassumption.
Qed.

End Silences.



(** *** The units of an episode *)

Lemma boundaries_loop_app silence_segments : forall boundaries cs total,
  boundaries_loop silence_segments boundaries cs total
  = boundaries ++ boundaries_loop silence_segments [] cs total.
Proof.
  induction silence_segments as [|[s e] segs IH]; intros boundaries cs total;
    simpl.
  - destruct (Qltb cs total); [reflexivity | rewrite app_nil_r; reflexivity].
  - destruct (Qltb cs s).
    + rewrite IH. rewrite (IH [_]). rewrite <- app_assoc. reflexivity.
    + apply IH.
Qed.

(** The boundaries the loop appends, with silences in order that last at
    least [gap]. *)
Lemma boundaries_loop_spans gap total silence_segments : forall cs,
  0 <= gap ->
  spans_apart silence_segments ->
  Forall (fun s => fst s + gap <= snd s) silence_segments ->
  Forall (fun s => cs <= fst s) silence_segments ->
  let r := boundaries_loop silence_segments [] cs total in
  Forall (fun b => cs <= fst b /\ fst b < snd b) r
  /\ StronglySorted (fun b1 b2 => snd b1 + gap <= fst b2) r
  /\ (silence_segments <> [] ->
      Forall (fun b => cs < snd b) r).
Proof.
  induction silence_segments as [|[s e] segs IH];
    intros cs Hgap Hs Hlong Hcs; simpl.
  - destruct (Qltb cs total) eqn:E.
    + apply Qltb_lt in E. split; [|split].
      * constructor; [split; simpl; lra | constructor].
      * constructor; constructor.
      * congruence.
    + split; [constructor | split; [constructor | congruence]].
  - apply StronglySorted_inv in Hs. destruct Hs as [Hs Hhd].
    inversion Hlong as [|? ? Hse Hlong']; subst.
    inversion Hcs as [|? ? Hcs0 Hcs']; subst. simpl in Hse, Hcs0.
    assert (Hnext : Forall (fun s0 => e <= fst s0) segs).
    { eapply Forall_impl; [|exact Hhd]. intros x Hx. simpl in Hx. lra. }
    destruct (IH e Hgap Hs Hlong' Hnext) as (Hall & Hsorted & _).
    assert (Hall' : Forall (fun b => cs <= fst b /\ fst b < snd b)
                           (boundaries_loop segs [] e total)).
    { eapply Forall_impl; [|exact Hall]. intros x [H1 H2]. split; lra. }
    destruct (Qltb cs s) eqn:E.
    + apply Qltb_lt in E. rewrite boundaries_loop_app. simpl app.
      split; [|split].
      * constructor; [split; simpl; lra | exact Hall'].
      * constructor; [exact Hsorted|].
        eapply Forall_impl; [|exact Hall]. intros x [H1 H2]. simpl. lra.
      * intros _. constructor; [simpl; lra|].
        eapply Forall_impl; [|exact Hall]. intros x [H1 H2]. lra.
    + split; [exact Hall' | split; [exact Hsorted|]].
      intros _. eapply Forall_impl; [|exact Hall]. intros x [H1 H2]. lra.
Qed.

Lemma unit_boundaries_spans gap total silence_segments :
  0 <= gap -> 0 <= total ->
  spans_apart silence_segments ->
  Forall (fun s => fst s + gap <= snd s) silence_segments ->
  Forall (fun s => 0 <= fst s) silence_segments ->
  let r := _determine_unit_boundaries silence_segments total in
  Forall (fun b => 0 <= fst b /\ fst b <= snd b) r
  /\ StronglySorted (fun b1 b2 => snd b1 + gap <= fst b2) r.
Proof.
  intros Hgap Htotal Hs Hlong Hpos. unfold _determine_unit_boundaries.
  destruct silence_segments as [|seg segs].
  - split; [|constructor; constructor].
    constructor; [split; simpl; lra | constructor].
  - assert (Hpos' : Forall (fun s => 0.0 <= fst s) (seg :: segs)).
    { eapply Forall_impl; [|exact Hpos]. intros x Hx. simpl in Hx. lra. }
    destruct (@boundaries_loop_spans gap total (seg :: segs) 0.0
                                     Hgap Hs Hlong Hpos')
      as (Hall & Hsorted & _).
    split; [|exact Hsorted].
    eapply Forall_impl; [|exact Hall]. intros x [H1 H2]. split; lra.
Qed.

Section UnitsOfBoundaries.
Variable lib : SignalLib.
Variable self : CryUnitDetector.
Variables episode_audio energy : list Q.
Variables episode_start_time frame_duration : Q.

Lemma unit_of_boundary_shape b u :
  In u (unit_of_boundary lib self episode_audio energy episode_start_time
                         frame_duration b) ->
  start_time u = episode_start_time + fst b
  /\ end_time u = episode_start_time + snd b
  /\ duration u = end_time u - start_time u
  /\ min_unit_duration self <= duration u.
Proof.
  destruct b as [unit_start unit_end]. unfold unit_of_boundary.
  destruct (Qltb _ _) eqn:E; [contradiction|].
  destruct (length _ =? 0)%nat; [contradiction|].
  intros [<- | []]. simpl. apply Qltb_ge in E. repeat split. exact E.
Qed.

Lemma units_of_spans gap spans :
  0 <= gap ->
  Forall (fun b => 0 <= fst b /\ fst b <= snd b) spans ->
  StronglySorted (fun b1 b2 => snd b1 + gap <= fst b2) spans ->
  let units := flat_map (unit_of_boundary lib self episode_audio energy
                                          episode_start_time frame_duration)
                        spans in
  units_in_time_order units
  /\ Forall (fun u => start_time u <= end_time u
                      /\ duration u = end_time u - start_time u
                      /\ unit_lasts (min_unit_duration self) u) units.
Proof.
  intros Hgap Hall Hs. cbv zeta. split.
  - unfold units_in_time_order.
    induction Hs as [|b spans Hs IH Hb]; [constructor|].
    inversion Hall as [|? ? Hb0 Hall']; subst.
    specialize (IH Hall'). simpl.
    assert (Hlater : forall u v,
               In u (unit_of_boundary lib self episode_audio energy
                                      episode_start_time frame_duration b) ->
               In v (flat_map (unit_of_boundary lib self episode_audio energy
                                 episode_start_time frame_duration) spans) ->
               end_time u <= start_time v).
    { intros u v Hu Hv. apply in_flat_map in Hv.
      destruct Hv as (b' & Hb' & Hv).
      apply unit_of_boundary_shape in Hu, Hv.
      destruct Hu as (_ & -> & _), Hv as (-> & _).
      rewrite Forall_forall in Hb. specialize (Hb b' Hb'). lra. }
    destruct (unit_of_boundary lib self episode_audio energy
                               episode_start_time frame_duration b)
      as [|u [|u' us]] eqn:Eu.
    + exact IH.
    + simpl. constructor; [exact IH|].
      apply Forall_forall. intros v Hv. apply Hlater; [left; reflexivity|].
      exact Hv.
    + exfalso. clear - Eu. destruct b as [unit_start unit_end].
      unfold unit_of_boundary in Eu.
      destruct (Qltb _ _); [discriminate|].
      destruct (length _ =? 0)%nat; discriminate.
  - apply Forall_flat_map. rewrite Forall_forall in *.
    intros b Hb. apply Forall_forall. intros u Hu.
    apply unit_of_boundary_shape in Hu.
    destruct Hu as (Hstart & Hend & Hdur & Hmin).
    destruct (Hall b Hb) as [H0 Hle].
    unfold unit_lasts.
    split; [rewrite Hstart, Hend; lra|]. split; assumption.
Qed.

End UnitsOfBoundaries.

Lemma long_silence_shape self fd frames seg :
  0 < fd ->
  spans_long_silence self fd frames seg ->
  fst seg + 0 <= snd seg /\ 0 <= fst seg.
Proof.
  intros Hfd (a & b & ((Hab & _) & _) & -> & -> & _). split.
  - pose proof (@grid_lt fd Hfd a b Hab). lra.
  - apply Qmult_le_0_compat; [apply of_nat_nonneg | lra].
Qed.

(** With a positive sampling rate, the units of an episode come in time
    order: no unit starts before an earlier one has ended.  No unit ends
    before it starts, the duration of a unit is its end time minus its
    start time, and every unit lasts at least [min_unit_duration]. *)
Theorem units_come_in_time_order
        (lib : SignalLib) (self : CryUnitDetector) (y : list Q)
        (episode_start_time episode_end_time : Q) :
  0 < sr self ->
  let units := detect_units_in_episode lib self y
                 episode_start_time episode_end_time in
  units_in_time_order units
  /\ Forall (fun u => start_time u <= end_time u
                      /\ duration u = end_time u - start_time u
                      /\ unit_lasts (min_unit_duration self) u) units.
Proof.
  intros Hsr. unfold detect_units_in_episode.
  fold (episode_audio self y episode_start_time episode_end_time).
  set (audio := episode_audio self y episode_start_time episode_end_time).
  destruct (length audio =? 0)%nat;
    [split; constructor|].
  cbv zeta. fold (envelope lib audio). set (energy := envelope lib audio).
  fold (envelope_duration lib self audio).
  fold (silent_frames self energy).
  assert (Hfd : 0 < 512 / sr self).
  { apply Qlt_shift_div_l; [assumption | lra]. }
  assert (Htotal : 0 <= envelope_duration lib self audio).
  { unfold envelope_duration. apply Qmult_le_0_compat; [|lra].
    apply of_nat_nonneg. }
  destruct (@silence_segments_runs self (512 / sr self)
              (silent_frames self energy) Hfd) as (Hapart & Hruns & _).
  assert (Hshape : Forall (fun s => fst s + 0 <= snd s /\ 0 <= fst s)
                          (_find_silence_segments self
                             (silent_frames self energy) (512 / sr self))).
  { eapply Forall_impl; [|exact Hruns].
    intros s Hs. eapply long_silence_shape; eassumption. }
  assert (H0 : 0 <= 0) by lra.
  destruct (@unit_boundaries_spans 0
              (envelope_duration lib self audio)
              (_find_silence_segments self (silent_frames self energy)
                                      (512 / sr self)) H0 Htotal Hapart)
    as [Hall Hsorted].
  { eapply Forall_impl; [|exact Hshape]. intros s [H _]. exact H. }
  { eapply Forall_impl; [|exact Hshape]. intros s [_ H]. exact H. }
  apply (@units_of_spans lib self audio energy episode_start_time
                         (512 / sr self) 0); assumption.
Qed.

Lemma units_come_in_time_order_witness :
  0 < sr default
  /\ (let y := repeat 1 11025 ++ repeat 0 4410 ++ repeat 1 11025 in
      let units := detect_units_in_episode reference.lib default y 0 1.2 in
      length units = 2%nat
      /\ units_in_time_order units
      /\ Forall (fun u => start_time u <= end_time u
                          /\ duration u = end_time u - start_time u
                          /\ unit_lasts (min_unit_duration default) u)
                units).
Proof.
  assert (H : 0 < sr default) by reflexivity.
  split; [exact H|]. cbv zeta. split.
  - pose proof silence_splits_the_episode_in_two as E. cbv zeta in E.
    apply (f_equal (@length _)) in E. rewrite length_map in E. exact E.
  - exact (@units_come_in_time_order reference.lib default
             (repeat 1 11025 ++ repeat 0 4410 ++ repeat 1 11025) 0 1.2 H).
Defined.

(** *** An episode without silence *)







(** *** The peak frequency *)

Lemma argmax_from_lt l : forall i best_i best,
  (best_i < i)%nat -> (argmax_from l i best_i best < i + length l)%nat.
Proof.
  induction l as [|x l IH]; intros i best_i best Hlt; simpl; [lia|].
  destruct (Qltb best x).
  - specialize (IH (S i) i x). lia.
  - specialize (IH (S i) best_i best). lia.
Qed.

Lemma np_argmax_lt l : l <> [] -> (np_argmax l < length l)%nat.
Proof.
  destruct l as [|x l]; [congruence|]. intros _. simpl.
  pose proof (@argmax_from_lt l 1 0 x). lia.
Qed.

(** With a positive sampling rate and a spectrum of at least one bin (numpy's
    [rfft] of [n] samples has [n // 2 + 1]), the peak frequency of a unit is
    at least zero and strictly below half the sampling rate; it is zero for
    audio of fewer than 512 samples. *)
Theorem peak_frequency_below_nyquist
        (lib : SignalLib) (self : CryUnitDetector) (audio : list Q) :
  0 < sr self ->
  rfft_magnitude lib audio <> [] ->
  let peak_freq := _estimate_peak_frequency lib self audio in
  0 <= peak_freq /\ peak_freq < sr self / 2
  /\ (len audio < 512 -> peak_freq == 0).
Proof.
  intros Hsr Hne. cbv zeta. unfold _estimate_peak_frequency.
  destruct (Qltb (len audio) 512) eqn:E.
  - repeat split; try lra. apply Qlt_shift_div_l; lra.
  - apply Qltb_ge in E.
    set (magnitude := rfft_magnitude lib audio) in *.
    pose proof (np_argmax_lt Hne) as Hlt.
    apply cry_detector_more.of_nat_lt in Hlt. fold (len magnitude) in Hlt.
    pose proof (of_nat_nonneg (np_argmax magnitude)) as H0.
    assert (Hlen : 0 < 2 * len magnitude) by lra.
    split; [|split].
    + apply Qle_shift_div_l; [exact Hlen|].
      assert (0 <= of_nat (np_argmax magnitude) * sr self)
        by (apply Qmult_le_0_compat; lra).
      lra.
    + apply Qlt_shift_div_r; [exact Hlen|].
      assert (Heq : sr self / 2 * (2 * len magnitude)
                    == len magnitude * sr self) by field.
      rewrite Heq. apply Qmult_lt_compat_r; assumption.
    + intro Hshort. lra.
Qed.

Lemma peak_frequency_below_nyquist_witness :
  0 < sr default
  /\ rfft_magnitude reference.lib (repeat 1 512) <> []
  /\ Qltb (len (repeat 1 512)) 512 = false
  /\ (let peak_freq := _estimate_peak_frequency reference.lib default
                         (repeat 1 512) in
      0 <= peak_freq /\ peak_freq < sr default / 2
      /\ (len (repeat 1 512) < 512 -> peak_freq == 0)).
Proof.
  assert (H : 0 < sr default) by reflexivity.
  assert (H' : rfft_magnitude reference.lib (repeat 1 512) <> [])
    by discriminate.
  split; [exact H|]. split; [exact H'|].
  split; [vm_compute; reflexivity|].
  exact (@peak_frequency_below_nyquist reference.lib default
           (repeat 1 512) H H').
Defined.

End cry_unit_detector_more.

(* ================================================================== *)
(** ** Facts about the analysis of a segment *)
(* ================================================================== *)

Module segment_analysis_facts.

Import PyFloat PyDict acoustic_analyzer analysis_tasks parselmouth.
Import segment_analysis properties segment_properties.
Import acoustic_analyzer_facts.
Open Scope float_scope.
Open Scope list_scope.
Open Scope writer_scope.
Set Warnings "-inexact-float".

Section Frames.
Variable progress_callback : bool.
Variable total_frames : nat.
Variable pitch : Pitch.
Variable formants : Formant.
Variable harmonicity : option Harmonicity.
Variable intensity : Intensity.
Variables shimmer jitter : option float.

(** The loop over the frames: one frame of features per time, and one
    callback per reporting frame. *)
Lemma frame_loop_spec (frames : list (nat * float)) : forall features_list,
  frame_loop progress_callback total_frames pitch formants harmonicity
             intensity shimmer jitter frames features_list
  = (if progress_callback
     then map (fun it : nat * float =>
                 (7 + true_div (fst it) total_frames * 3,
                  frame_message total_frames (fst it)))
              (filter (fun it => reports_frame total_frames (fst it)) frames)
     else [],
     Ok (features_list
         ++ map (fun it : nat * float =>
                   features_at pitch formants harmonicity intensity
                               shimmer jitter (snd it))
                frames)).
Proof.
  induction frames as [|[idx t] frames IH]; intro features_list.
  - simpl. unfold ret. rewrite app_nil_r.
    destruct progress_callback; reflexivity.
  - cbn [frame_loop]. unfold bind at 1. unfold frame_step.
    destruct (reports_frame total_frames idx) eqn:E.
    + unfold report. destruct progress_callback.
      * unfold bind, ret. rewrite IH. cbn [filter fst snd map].
        rewrite E. cbn [map fst snd app]. rewrite <- app_assoc. reflexivity.
      * unfold bind, ret. rewrite IH. cbn [map fst snd app].
        rewrite <- app_assoc. reflexivity.
    + unfold bind, ret. rewrite IH. cbn [filter fst snd map app].
      rewrite E. rewrite <- app_assoc.
      destruct progress_callback; reflexivity.
Qed.

End Frames.

Lemma combine_seq_snd {A} (l : list A) : forall k,
  map snd (combine (seq k (length l)) l) = l.
Proof.
  induction l as [|x l IH]; intro k; simpl; [reflexivity|].
  rewrite IH. reflexivity.
Qed.


Section Analysis.
Variable self : AcousticAnalyzer.
Variable files : Files.
Variable file_path : string.
Variables start_time end_time : float.
Variable o : Opened.
Hypothesis opened : opens self files file_path start_time end_time o.

(** With the six calls returning, the analysis is the eight callbacks and
    the loop over the frames. *)
Lemma analyze_segment_opened progress_callback :
  analyze_segment self files file_path start_time end_time progress_callback
  = ((if progress_callback
      then [(1, "Loading audio segment"%string);
            (2, "Extracting segment"%string);
            (3, "Computing F0 (pitch)"%string);
            (4, "Computing formants"%string);
            (5, "Creating point process"%string);
            (6, "Computing intensity"%string);
            (6.5, "Computing harmonicity (HNR)"%string);
            (6.7, "Computing jitter and shimmer"%string)]
           ++ map (fun it : nat * float =>
                     (7 + true_div (fst it) (length (xs (the_pitch o))) * 3,
                      frame_message (length (xs (the_pitch o))) (fst it)))
                  (filter (fun it => reports_frame
                                       (length (xs (the_pitch o))) (fst it))
                          (Py.enumerate (xs (the_pitch o))))
      else []),
     Ok (map (frame_of self start_time end_time o) (xs (the_pitch o)))).
Proof.
  destruct opened as (H1 & H2 & H3 & H4 & H5 & H6).
  unfold analyze_segment, bind, call, report, ret.
  rewrite H1, H2, H3, H4, H5, H6.
  fold (jitter_of start_time end_time o).
  fold (shimmer_of start_time end_time o). fold (harmonicity_of self o).
  rewrite frame_loop_spec. cbn [app].
  replace (map (fun it : nat * float =>
                  features_at (the_pitch o) (the_formants o)
                              (harmonicity_of self o) (the_intensity o)
                              (shimmer_of start_time end_time o)
                              (jitter_of start_time end_time o) (snd it))
               (Py.enumerate (xs (the_pitch o))))
    with (map (frame_of self start_time end_time o) (xs (the_pitch o))).
  - destruct progress_callback; reflexivity.
  - unfold Py.enumerate.
    rewrite <- (combine_seq_snd (xs (the_pitch o)) 0) at 1.
    rewrite map_map. reflexivity.
Qed.

End Analysis.

Lemma present_usable v x : present v = Some x -> usable x.
Proof.
  unfold present, usable. destruct (v =? 0) eqn:E0; [discriminate|].
  destruct (is_nan v) eqn:En; [discriminate|].
  intro H. injection H as <-. split; assumption.
Qed.

Lemma frame_of_clean self start_time end_time o t :
  clean (frame_of self start_time end_time o t).
Proof.
  unfold clean, per_frame_parameters, measured, frame_of, features_at.
  repeat apply Forall_cons; try apply Forall_nil; simpl; intros v Hv.
  - eapply present_usable; eassumption.
  - unfold formant_at in Hv. destruct (t <=? _); [|discriminate].
    eapply present_usable; eassumption.
  - unfold formant_at in Hv. destruct (t <=? _); [|discriminate].
    eapply present_usable; eassumption.
  - unfold formant_at in Hv. destruct (t <=? _); [|discriminate].
    eapply present_usable; eassumption.
  - unfold hnr_at in Hv. destruct (harmonicity_of self o) as [h|];
      [|discriminate].
    destruct (harmonicity_bool h); [|discriminate].
    destruct (harmonicity_get_value h t); [|discriminate].
    eapply present_usable; eassumption.
  - eapply present_usable; eassumption.
Qed.

(** When the six unguarded calls into Parselmouth return, [analyze_segment]
    returns, with or without a callback, and returns one frame per time of
    the pitch object, in order and with that time; f0, the three formants,
    hnr and intensity of a frame are each absent or a float that is neither
    zero nor NaN; and all frames carry the same jitter and the same
    shimmer. *)
Theorem one_clean_frame_per_pitch_time
        (self : AcousticAnalyzer) (files : Files) (file_path : string)
        (start_time end_time : float) (progress_callback : bool)
        (o : Opened) :
  opens self files file_path start_time end_time o ->
  exists features,
    snd (analyze_segment self files file_path start_time end_time
                         progress_callback) = Ok features
    /\ map time features = xs (the_pitch o)
    /\ Forall clean features
    /\ Forall (fun f => jitter f = jitter_of start_time end_time o
                        /\ shimmer f = shimmer_of start_time end_time o)
              features.
Proof.
  intro Hopen. rewrite (analyze_segment_opened Hopen). cbn [snd].
  eexists. split; [reflexivity|]. split; [|split].
  - rewrite map_map. cbn [time frame_of features_at]. apply map_id.
  - apply Forall_map. apply Forall_forall. intros t _.
    apply frame_of_clean.
  - apply Forall_map. apply Forall_forall. intros t _. split; reflexivity.
Qed.

Lemma one_clean_frame_per_pitch_time_witness :
  opens default reference_praat.files "cry.wav" 0 2 reference_opened
  /\ exists features,
       snd (analyze_segment default reference_praat.files "cry.wav" 0 2 true)
       = Ok features
       /\ map time features = xs (the_pitch reference_opened)
       /\ Forall clean features
       /\ Forall (fun f => jitter f = jitter_of 0 2 reference_opened
                           /\ shimmer f = shimmer_of 0 2 reference_opened)
                 features.
Proof.
  assert (H : opens default reference_praat.files "cry.wav" 0 2
                    reference_opened) by (repeat split).
  split; [exact H|].
  exact (@one_clean_frame_per_pitch_time default reference_praat.files
           "cry.wav" 0 2 true reference_opened H).
Defined.

(** *** Missing measures *)

Lemma no_harmonicity_no_hnr self start_time end_time o t :
  no_harmonicity self (the_segment o) ->
  hnr (frame_of self start_time end_time o t) = None.
Proof.
  unfold no_harmonicity, frame_of, features_at, hnr_at, harmonicity_of.
  simpl. destruct (to_harmonicity _ _) as [h|e]; simpl; [|reflexivity].
  intros ->. reflexivity.
Qed.

Lemma missing_measure_no_hyper_phonation self start_time end_time o t :
  a_measure_is_missing self start_time end_time o ->
  is_hyper_phonation (frame_of self start_time end_time o t) = false.
Proof.
  intros [Hh | [Hj | Hs]]; unfold is_hyper_phonation.
  - rewrite no_harmonicity_no_hnr by assumption. reflexivity.
  - cbn [frame_of features_at hnr shimmer jitter]. rewrite Hj.
    destruct (hnr_at _ _); [|reflexivity].
    destruct (shimmer_of _ _ _); reflexivity.
  - cbn [frame_of features_at hnr shimmer jitter]. rewrite Hs.
    destruct (hnr_at _ _); reflexivity.
Qed.

Lemma statistics_of_absent np getattr name features :
  In (name, getattr) params ->
  Forall (fun f => getattr f = None) features ->
  get (acoustic_analyzer.compute_statistics np features) name = Some all_null.
Proof.
  intros Hin Habsent.
  pose proof (statistics_lookup np features) as Hall.
  rewrite Forall_forall in Hall. specialize (Hall _ Hin). cbn [fst snd] in Hall.
  rewrite Hall. rewrite defined_samples_all_absent by assumption. reflexivity.
Qed.

(** When one of hnr, jitter and shimmer is missing for the whole segment
    (the harmonicity cannot be computed or is empty, or Praat gives no
    jitter, or no shimmer), the analysis still returns, no frame counts as
    hyper-phonation, so that [hyper_phonation_pct] is zero, and the
    statistics of the missing parameter are all null. *)
Theorem missing_measure_means_no_hyper_phonation
        (np : Numpy) (self : AcousticAnalyzer) (files : Files)
        (file_path : string) (start_time end_time : float)
        (progress_callback : bool) (o : Opened) (thr : float) :
  opens self files file_path start_time end_time o ->
  a_measure_is_missing self start_time end_time o ->
  exists features,
    snd (analyze_segment self files file_path start_time end_time
                         progress_callback) = Ok features
    /\ hyper_phonation_pct (acoustic_analyzer.compute_special_parameters features thr) = 0
    /\ (no_harmonicity self (the_segment o) ->
        get (acoustic_analyzer.compute_statistics np features) "hnr" = Some all_null)
    /\ (jitter_of start_time end_time o = None ->
        get (acoustic_analyzer.compute_statistics np features) "jitter" = Some all_null)
    /\ (shimmer_of start_time end_time o = None ->
        get (acoustic_analyzer.compute_statistics np features) "shimmer" = Some all_null).
Proof.
  intros Hopen Hmissing. rewrite (analyze_segment_opened Hopen). cbn [snd].
  eexists. split; [reflexivity|].
  set (features := map (frame_of self start_time end_time o)
                       (xs (the_pitch o))).
  split; [|split; [|split]].
  - destruct features as [|f l] eqn:Ef; [reflexivity|].
    rewrite special_parameters_of_counts. cbv zeta. cbn [hyper_phonation_pct].
    rewrite count_none; [reflexivity|].
    rewrite <- Ef. unfold features. apply Forall_map. apply Forall_forall.
    intros t _. apply missing_measure_no_hyper_phonation. exact Hmissing.
  - intro Hh. apply statistics_of_absent with (getattr := hnr);
      [unfold params; simpl; tauto |].
    apply Forall_map. apply Forall_forall. intros t _.
    apply no_harmonicity_no_hnr. exact Hh.
  - intro Hj. apply statistics_of_absent with (getattr := jitter);
      [unfold params; simpl; tauto |].
    apply Forall_map. apply Forall_forall. intros t _. exact Hj.
  - intro Hs. apply statistics_of_absent with (getattr := shimmer);
      [unfold params; simpl; tauto |].
    apply Forall_map. apply Forall_forall. intros t _. exact Hs.
Qed.

Lemma missing_measure_means_no_hyper_phonation_witness :
  opens default reference_praat.files "cry.wav" 0 2 reference_opened
  /\ a_measure_is_missing default 0 2 reference_opened
  /\ exists features,
       snd (analyze_segment default reference_praat.files "cry.wav" 0 2 true)
       = Ok features
       /\ hyper_phonation_pct
            (acoustic_analyzer.compute_special_parameters features 500) = 0.
Proof.
  assert (H : opens default reference_praat.files "cry.wav" 0 2
                    reference_opened) by (repeat split).
  assert (H' : a_measure_is_missing default 0 2 reference_opened)
    by (left; exact I).
  split; [exact H|]. split; [exact H'|].
  destruct (@missing_measure_means_no_hyper_phonation reference_numpy.np
              default reference_praat.files "cry.wav" 0 2 true
              reference_opened 500 H H') as (features & Hf & Hp & _).
  exists features. split; assumption.
Defined.

(** *** The callbacks *)



(** *** The segments of a file *)

Lemma str_inj n m : str n = str m -> n = m.
Proof.
  unfold str. intro H.
  apply (f_equal NilEmpty.uint_of_string) in H.
  rewrite !NilEmpty.usu in H. injection H as H.
  apply (f_equal Nat.of_uint) in H.
  rewrite !DecimalNat.Unsigned.of_to in H. exact H.
Qed.

Lemma get_app {V} (d d' : Dict V) key :
  get (d ++ d') key = match get d key with
                      | Some v => Some v
                      | None => get d' key
                      end.
Proof.
  induction d as [|[k v] d IH]; simpl; [reflexivity|].
  destruct (String.eqb k key); [reflexivity | exact IH].
Qed.

Lemma set_fresh {V} (d : Dict V) key (v : V) :
  get d key = None -> set d key v = d ++ [(key, v)].
Proof.
  induction d as [|[k v'] d IH]; simpl; [reflexivity|].
  destruct (String.eqb k key); [discriminate|].
  intro H. rewrite IH by assumption. reflexivity.
Qed.

Section File.
Variable self : AcousticAnalyzer.
Variable files : Files.
Variable file_path : string.

Lemma segments_loop_returns segments results :
  Forall2 (analysed self files file_path) segments results ->
  forall k acc,
    (forall j, (k <= j)%nat ->
               get acc ("segment_" ++ str j)%string = None) ->
    segments_loop self files file_path
                  (combine (seq k (length segments)) segments) acc
    = Ok (acc ++ map (fun ir : nat * list AcousticFeatures =>
                        (("segment_" ++ str (fst ir))%string, snd ir))
                     (combine (seq k (length results)) results)).
Proof.
  induction 1 as [|[start end_] features segments results Hseg _ IH];
    intros k acc Hfresh.
  - simpl. rewrite app_nil_r. reflexivity.
  - cbn [length seq combine segments_loop map fst snd].
    unfold analysed in Hseg. cbn [fst snd] in Hseg. rewrite Hseg.
    rewrite set_fresh by (apply Hfresh; lia).
    rewrite IH.
    + rewrite <- app_assoc. reflexivity.
    + intros j Hj. rewrite get_app. rewrite Hfresh by lia. simpl.
      destruct (String.eqb_spec (str k) (str j)) as [Heq | _];
        [|reflexivity].
      apply str_inj in Heq. lia.
Qed.

Lemma segments_loop_raises before results seg after e :
  Forall2 (analysed self files file_path) before results ->
  snd (analyze_segment self files file_path (fst seg) (snd seg) false)
  = Raise e ->
  forall k acc,
    segments_loop self files file_path
                  (combine (seq k (length (before ++ seg :: after)))
                           (before ++ seg :: after)) acc
    = Raise e.
Proof.
  intros Hbefore Hseg.
  induction Hbefore as [|[start end_] features before results Hb _ IH];
    intros k acc.
  - destruct seg as [start end_]. cbn [app length seq combine segments_loop].
    cbn [fst snd] in Hseg. rewrite Hseg. reflexivity.
  - cbn [app length seq combine segments_loop].
    unfold analysed in Hb. cbn [fst snd] in Hb. rewrite Hb. apply IH.
Qed.

End File.

(** [analyze_file] on a list of segments returns a dict with one entry per
    segment, [segment_0], [segment_1], ... in the order of the segments,
    each holding the frames of its segment, when every segment can be
    analysed; it raises what the first segment that cannot be analysed
    raises; and without a list of segments it analyses the whole file as
    the single segment from 0 to the duration of the sound. *)
Theorem analyze_file_one_entry_per_segment
        (self : AcousticAnalyzer) (files : Files) (file_path : string)
        (segments : list (float * float)) :
  (forall results,
      Forall2 (analysed self files file_path) segments results ->
      analyze_file self files file_path (Some segments)
      = Ok (keyed_by_segment results))
  /\ (forall before seg after results e,
         segments = before ++ seg :: after ->
         Forall2 (analysed self files file_path) before results ->
         snd (analyze_segment self files file_path (fst seg) (snd seg) false)
         = Raise e ->
         analyze_file self files file_path (Some segments) = Raise e)
  /\ (forall sound,
         files file_path = Ok sound ->
         analyze_file self files file_path None
         = analyze_file self files file_path
                        (Some [(0, parselmouth.duration sound)])).
Proof.
  split; [|split].
  - intros results Hall. unfold analyze_file, Py.enumerate.
    rewrite (segments_loop_returns Hall); [reflexivity|].
    intros j _. reflexivity.
  - intros before seg after results e -> Hbefore Hseg.
    unfold analyze_file, Py.enumerate.
    eapply segments_loop_raises; eassumption.
  - intros sound Hsound. unfold analyze_file. rewrite Hsound. reflexivity.
Qed.

End segment_analysis_facts.

(* ================================================================== *)
(** ** More facts about app/tasks/analysis_tasks.py *)
(* ================================================================== *)

Module analysis_tasks_more.

Import Py Py_facts PyDict analysis_tasks properties task_properties.
Import analysis_tasks_facts.
Open Scope Q_scope.
Open Scope list_scope.

(** *** Progress *)

Lemma steps_within_nil lo hi : steps_within lo hi [].
Proof.
  split; constructor.
Qed.

Lemma steps_within_one lo hi p msg :
  (lo <= p <= hi)%Z -> steps_within lo hi [(p, msg)].
Proof.
  intro H. split; simpl.
  - constructor; constructor.
  - constructor; [exact H | constructor].
Qed.

Lemma strongly_sorted_app l1 : forall l2 mid,
  StronglySorted Z.le l1 -> StronglySorted Z.le l2 ->
  Forall (fun p => (p <= mid)%Z) l1 -> Forall (fun p => (mid <= p)%Z) l2 ->
  StronglySorted Z.le (l1 ++ l2).
Proof.
  induction l1 as [|x l1 IH]; intros l2 mid H1 H2 Hlo Hhi; simpl;
    [exact H2|].
  apply StronglySorted_inv in H1. destruct H1 as [H1 Hx].
  inversion Hlo as [|? ? Hxm Hlo']; subst.
  constructor; [eapply IH; eassumption|].
  apply Forall_app. split; [exact Hx|].
  eapply Forall_impl; [|exact Hhi]. intros p Hp. simpl in Hp. lia.
Qed.

Lemma steps_within_app lo mid hi l1 l2 :
  (lo <= mid <= hi)%Z ->
  steps_within lo mid l1 -> steps_within mid hi l2 ->
  steps_within lo hi (l1 ++ l2).
Proof.
  intros Hmid [Hs1 Hb1] [Hs2 Hb2]. split; rewrite map_app.
  - apply strongly_sorted_app with (mid := mid); try assumption.
    + eapply Forall_impl; [|exact Hb1]. intros p Hp. simpl in Hp. lia.
    + eapply Forall_impl; [|exact Hb2]. intros p Hp. simpl in Hp. lia.
  - apply Forall_app. split.
    + eapply Forall_impl; [|exact Hb1]. intros p Hp. simpl in Hp. lia.
    + eapply Forall_impl; [|exact Hb2]. intros p Hp. simpl in Hp. lia.
Qed.

Lemma reports_weaken {A} lo hi lo' hi' (m : M A) :
  (lo' <= lo)%Z -> (hi <= hi')%Z -> reports lo hi m -> reports lo' hi' m.
Proof.
  intros Hlo Hhi Hm w. destruct (Hm w) as (reported & Hp & Hs & Hb).
  exists reported. split; [exact Hp|]. split; [exact Hs|].
  eapply Forall_impl; [|exact Hb]. intros p Hp'. simpl in Hp'. lia.
Qed.

(** A computation that reports nothing. *)
Lemma reports_silent {A} lo hi (m : M A) :
  (forall w, progress (snd (m w)) = progress w) -> reports lo hi m.
Proof.
  intros Hm w. exists []. rewrite app_nil_r. split; [apply Hm|].
  apply steps_within_nil.
Qed.

Lemma reports_update_state lo hi p msg :
  (lo <= p <= hi)%Z -> reports lo hi (update_state p msg).
Proof.
  intros Hp w. exists [(p, msg)]. split; [reflexivity|].
  apply steps_within_one. exact Hp.
Qed.

Lemma reports_bind {A B} lo mid hi (m : M A) (k : A -> M B) :
  (lo <= mid <= hi)%Z ->
  reports lo mid m -> (forall a, reports mid hi (k a)) ->
  reports lo hi (bind m k).
Proof.
  intros Hmid Hm Hk w. unfold bind.
  destruct (Hm w) as (l1 & Hp1 & Hs1).
  destruct (m w) as [[a|e] w1]; simpl in Hp1.
  - destruct (Hk a w1) as (l2 & Hp2 & Hs2).
    exists (l1 ++ l2). split.
    + rewrite Hp2, Hp1, app_assoc. reflexivity.
    + eapply steps_within_app; eassumption.
  - exists l1. split; [exact Hp1|]. destruct Hs1 as [Hs Hb].
    split; [exact Hs|].
    eapply Forall_impl; [|exact Hb]. intros p Hp'. simpl in Hp'. lia.
Qed.

Lemma reports_try_except {A} lo mid hi (body : M A) handler :
  (lo <= mid <= hi)%Z ->
  reports lo mid body -> (forall e, reports mid hi (handler e)) ->
  reports lo hi (try_except body handler).
Proof.
  intros Hmid Hm Hk w. unfold try_except.
  destruct (Hm w) as (l1 & Hp1 & Hs1).
  destruct (body w) as [[a|e] w1]; simpl in Hp1.
  - exists l1. split; [exact Hp1|]. destruct Hs1 as [Hs Hb].
    split; [exact Hs|].
    eapply Forall_impl; [|exact Hb]. intros p Hp'. simpl in Hp'. lia.
  - destruct (Hk e w1) as (l2 & Hp2 & Hs2).
    exists (l1 ++ l2). split.
    + rewrite Hp2, Hp1, app_assoc. reflexivity.
    + eapply steps_within_app; eassumption.
Qed.

(** *** The arithmetic of [base_progress] and [step_size] *)

Lemma int_of_fraction x a (b : positive) :
  x == a # b -> (0 <= a)%Z -> int x = (a / Zpos b)%Z.
Proof.
  intros Hx Ha.
  assert (H0 : 0 <= x).
  { rewrite Hx. unfold Qle. simpl. lia. }
  rewrite cry_unit_detector_facts.int_floor by exact H0.
  rewrite Hx. reflexivity.
Qed.

Lemma of_nat_fraction n : (0 < n)%nat -> of_nat n == Zpos (Pos.of_nat n) # 1.
Proof.
  intro H. unfold of_nat, inject_Z.
  rewrite <- (Nat2Pos.id n) at 1 by lia.
  rewrite positive_nat_Z. reflexivity.
Qed.

Lemma base_progress_eq n i :
  base_progress n i
  = (50 + (30 * Z.of_nat i) / Z.of_nat (Nat.max n 1))%Z.
Proof.
  unfold base_progress. f_equal.
  assert (Hpos : (0 < Nat.max n 1)%nat) by lia.
  rewrite (@int_of_fraction _ (30 * Z.of_nat i) (Pos.of_nat (Nat.max n 1))).
  - f_equal. rewrite <- (Nat2Pos.id (Nat.max n 1)) at 2 by lia.
    rewrite positive_nat_Z. reflexivity.
  - rewrite (of_nat_fraction Hpos). unfold of_nat, inject_Z, Qeq, Qdiv, Qmult,
      Qinv. cbn [Qnum Qden]. rewrite ?Pos.mul_1_r, ?Pos.mul_1_l. ring.
  - lia.
Qed.

Lemma step_size_eq n :
  step_size n = (2 / Z.of_nat (Nat.max n 1))%Z.
Proof.
  unfold step_size.
  assert (Hpos : (0 < Nat.max n 1)%nat) by lia.
  rewrite (@int_of_fraction _ 2 (Pos.of_nat (Nat.max n 1))).
  - f_equal. rewrite <- (Nat2Pos.id (Nat.max n 1)) at 2 by lia.
    rewrite positive_nat_Z. reflexivity.
  - rewrite (of_nat_fraction Hpos). unfold Qeq, Qdiv, Qmult, Qinv.
    cbn [Qnum Qden]. rewrite ?Pos.mul_1_r, ?Pos.mul_1_l.
    change (Qnum 30) with 30%Z. change (Qden 30) with 1%positive.
    change (Qnum 15) with 15%Z. change (Qden 15) with 1%positive.
    cbn [Qnum Qden]. rewrite ?Pos.mul_1_r, ?Pos.mul_1_l. 
    change (Z.pos (Pos.of_nat (Nat.max n 1) * 15))
      with (Z.pos (Pos.of_nat (Nat.max n 1)) * 15)%Z. ring.
  - lia.
Qed.

Lemma progress_arithmetic n i :
  (i < n)%nat ->
  (50 <= base_progress n i)%Z
  /\ (0 <= step_size n <= 2)%Z
  /\ (base_progress n i + 14 * step_size n <= base_progress n (S i))%Z
  /\ (base_progress n (S i) <= 80)%Z.
Proof.
  intro Hi. rewrite !base_progress_eq, step_size_eq.
  replace (Nat.max n 1) with n by lia.
  destruct n as [|[|[|n]]]; [lia | | |].
  - replace i with 0%nat by lia. repeat split; vm_compute; congruence.
  - assert (Hcases : i = 0%nat \/ i = 1%nat) by lia.
    destruct Hcases as [-> | ->]; repeat split; vm_compute; congruence.
  - set (m := S (S (S n))) in *.
    assert (Hm : (3 <= Z.of_nat m)%Z) by lia.
    rewrite (Z.div_small 2) by lia.
    assert (H0 : (0 <= 30 * Z.of_nat i / Z.of_nat m)%Z)
      by (apply Z.div_pos; lia).
    assert (Hmono : (30 * Z.of_nat i / Z.of_nat m
                     <= 30 * Z.of_nat (S i) / Z.of_nat m)%Z)
      by (apply Z.div_le_mono; lia).
    assert (Hup : (30 * Z.of_nat (S i) / Z.of_nat m <= 30)%Z)
      by (apply Z.div_le_upper_bound; lia).
    lia.
Qed.

(** *** The progress of one episode *)

Section Progress.
Variable an : Analysers.
Hypothesis orderly_callbacks :
  forall file_path start_time end_time,
    orderly (fst (analyze_segment an file_path start_time end_time)).

Lemma int_step_bounds s step :
  0 <= s -> s <= 11 -> (0 <= step)%Z ->
  (0 <= int (s * inject_Z step) <= 11 * step)%Z.
Proof.
  intros Hs0 Hs11 Hstep.
  assert (Hq : 0 <= inject_Z step).
  { change 0 with (inject_Z 0). rewrite <- Zle_Qle. exact Hstep. }
  split.
  - apply cry_unit_detector_facts.int_nonneg.
    apply Qmult_le_0_compat; assumption.
  - replace (11 * step)%Z with (int (inject_Z (11 * step))).
    + apply cry_unit_detector_facts.int_monotone.
      * apply Qmult_le_0_compat; assumption.
      * rewrite inject_Z_mult. apply Qmult_le_compat_r; assumption.
    + unfold int, inject_Z. simpl. apply Z.quot_1_r.
Qed.

Lemma reports_callbacks base step label hi (l : list (Q * string)) :
  (0 <= step)%Z ->
  StronglySorted Qle (map fst l) ->
  Forall (fun s => 0 <= s /\ s <= 11) (map fst l) ->
  (base + 11 * step <= hi)%Z ->
  forall lo,
    (lo <= hi)%Z ->
    Forall (fun s => (lo <= base + int (s * inject_Z step))%Z) (map fst l) ->
    reports lo hi
      (fold_right
         (fun sm k =>
            bind (update_state (base + int (fst sm * inject_Z step))%Z
                               (label ++ snd sm)%string)
                 (fun _ => k))
         (ret tt) l).
Proof.
  intros Hstep Hsorted Hrange Hhi.
  induction l as [|[s msg] l IH]; intros lo Hlohi Hlo; simpl.
  - apply reports_silent. reflexivity.
  - simpl in Hsorted, Hrange, Hlo.
    apply StronglySorted_inv in Hsorted. destruct Hsorted as [Hsorted Hs].
    inversion Hrange as [|? ? [Hs0 Hs11] Hrange']; subst.
    inversion Hlo as [|? ? Hlo0 Hlo']; subst.
    pose proof (int_step_bounds Hs0 Hs11 Hstep) as [Hi0 Hi11].
    apply reports_bind with (mid := (base + int (s * inject_Z step))%Z);
      [lia | apply reports_update_state; lia |].
    intros _. apply IH; try assumption; [lia|].
    rewrite Forall_forall in *. intros s' Hs'.
    specialize (Hs s' Hs'). destruct (Hrange' s' Hs') as [Hs'0 _].
    assert (Hq : 0 <= inject_Z step).
    { change 0 with (inject_Z 0). rewrite <- Zle_Qle. exact Hstep. }
    assert (int (s * inject_Z step) <= int (s' * inject_Z step))%Z.
    { apply cry_unit_detector_facts.int_monotone.
      - apply Qmult_le_0_compat; assumption.
      - apply Qmult_le_compat_r; assumption. }
    lia.
Qed.

Lemma reports_analyze_episode audio_file y_full n i episode acc :
  (i < n)%nat ->
  reports (base_progress n i) (base_progress n i + 14 * step_size n)
          (analyze_episode an audio_file y_full n i episode acc).
Proof.
  intro Hi. destruct (progress_arithmetic Hi) as (Hb & [Hs0 Hs2] & _).
  unfold analyze_episode. cbv zeta.
  fold (base_progress n i). fold (step_size n).
  pose proof (orderly_callbacks (file_path audio_file)
                (cry_detector.start_time episode)
                (cry_detector.end_time episode)) as [Hsorted Hrange].
  destruct (analyze_segment an _ _ _) as [callbacks features_or_error].
  simpl in Hsorted, Hrange.
  set (b := base_progress n i) in *. set (st := step_size n) in *.
  apply reports_bind with (mid := (b + 11 * st)%Z); [lia | |].
  { apply reports_callbacks; try assumption; try lia.
    rewrite Forall_forall in *. intros s Hs.
    destruct (Hrange s Hs) as [H0 H11].
    pose proof (int_step_bounds H0 H11 Hs0). lia. }
  intros _.
  apply reports_bind with (mid := (b + 11 * st)%Z);
    [lia | apply reports_silent; reflexivity |]. intro features.
  apply reports_bind with (mid := (b + st * 11)%Z);
    [lia | apply reports_update_state; lia |]. intros _.
  apply reports_bind with (mid := (b + st * 11)%Z);
    [lia | apply reports_silent; reflexivity |]. intro statistics.
  apply reports_bind with (mid := (b + st * 12)%Z);
    [lia | apply reports_update_state; lia |]. intros _.
  apply reports_bind with (mid := (b + st * 12)%Z);
    [lia | apply reports_silent; reflexivity |]. intro special_params.
  apply reports_bind with (mid := (b + st * 13)%Z);
    [lia | apply reports_update_state; lia |]. intros _.
  apply reports_bind with (mid := (b + st * 13)%Z);
    [lia | apply reports_silent; reflexivity |]. intro cry_units.
  apply reports_bind with (mid := (b + st * 14)%Z);
    [lia | apply reports_update_state; lia |]. intros _.
  apply reports_bind with (mid := (b + st * 14)%Z);
    [lia | apply reports_silent; reflexivity |]. intros [cryCE unvoicedCE].
  apply reports_silent. reflexivity.
Qed.

Lemma reports_episode_loop audio_file y_full n episodes : forall i acc,
  (i + length episodes = n)%nat ->
  reports (base_progress n i) 80
          (episode_loop an audio_file y_full n i episodes acc).
Proof.
  induction episodes as [|episode rest IH]; intros i acc Hlen; simpl.
  - apply reports_silent. reflexivity.
  - simpl in Hlen. assert (Hi : (i < n)%nat) by lia.
    destruct (progress_arithmetic Hi) as (Hb & [Hs0 Hs2] & Hnext & Htop).
    apply reports_bind with (mid := base_progress n (S i)); [lia | |].
    + eapply reports_weaken; [| |apply reports_analyze_episode; exact Hi];
        lia.
    + intro acc'. apply IH. lia.
Qed.

Lemma reports_try_block file_id : reports 10 100 (try_block an file_id).
Proof.
  unfold try_block.
  apply reports_bind with (mid := 10%Z);
    [lia | apply reports_silent; reflexivity |].
  intros [audio_file|]; [|apply reports_silent; reflexivity].
  apply reports_bind with (mid := 10%Z);
    [lia | apply reports_silent; reflexivity |]. intros _.
  apply reports_bind with (mid := 10%Z);
    [lia | apply reports_silent; reflexivity |]. intros _.
  apply reports_bind with (mid := 10%Z);
    [lia | apply reports_update_state; lia |]. intros _.
  apply reports_bind with (mid := 20%Z);
    [lia | apply reports_update_state; lia |]. intros _.
  apply reports_bind with (mid := 20%Z);
    [lia | apply reports_silent; reflexivity |]. intro cry_episodes.
  apply reports_bind with (mid := 40%Z);
    [lia | apply reports_update_state; lia |]. intros _.
  apply reports_bind with (mid := 50%Z);
    [lia | apply reports_update_state; lia |]. intros _.
  apply reports_bind with (mid := 50%Z);
    [lia | apply reports_silent; reflexivity |]. intro y_full.
  apply reports_bind with (mid := 80%Z); [lia | |].
  { pose proof (@reports_episode_loop audio_file y_full
                  (length cry_episodes) cry_episodes 0
                  {| episodes_features := []; episodes_statistics := [];
                     episodes_cry_units := [] |} eq_refl) as H.
    rewrite base_progress_eq in H. simpl Z.of_nat in H.
    rewrite Z.mul_0_r, Z.div_0_l, Z.add_0_r in H by lia. exact H. }
  intro filled.
  apply reports_bind with (mid := 85%Z);
    [lia | apply reports_update_state; lia |]. intros _.
  apply reports_bind with (mid := 85%Z);
    [lia | apply reports_silent; reflexivity |]. intro analysis_result.
  apply reports_bind with (mid := 85%Z);
    [lia | apply reports_silent; reflexivity |]. intros _.
  apply reports_bind with (mid := 85%Z);
    [lia | apply reports_silent; reflexivity |]. intros _.
  apply reports_bind with (mid := 100%Z);
    [lia | apply reports_update_state; lia |]. intros _.
  apply reports_silent. reflexivity.
Qed.

Lemma reports_except_block file_id e :
  reports 100 100 (except_block file_id e).
Proof.
  apply reports_silent. intro w. unfold except_block, bind, query_first.
  simpl. destruct (find _ _); reflexivity.
Qed.

End Progress.

(** When the steps of the callbacks of each segment never decrease and lie
    between 0 and 11, the progress values the job reports, whether it
    succeeds or fails and at whichever point, never decrease and lie
    between 10 and 100: each is at least as large as all the values
    reported before it. *)
Theorem progress_never_goes_back
        (an : Analysers) (file_id : Z) (w : World) :
  (forall file_path start_time end_time,
      orderly (fst (analyze_segment an file_path start_time end_time))) ->
  exists reported,
    progress (snd (analyze_audio_file an file_id w)) = progress w ++ reported
    /\ StronglySorted Z.le (map fst reported)
    /\ Forall (fun p => (10 <= p <= 100)%Z) (map fst reported).
Proof.
  intro Horderly.
  assert (H : reports 10 100 (analyze_audio_file an file_id)).
  { unfold analyze_audio_file.
    apply reports_try_except with (mid := 100%Z); [lia | |].
    - apply reports_try_block. exact Horderly.
    - intro e. apply reports_except_block. }
  destruct (H w) as (reported & Hp & Hs & Hb).
  exists reported. repeat split; assumption.
Qed.

Lemma progress_never_goes_back_witness :
  (forall file_path start_time end_time,
      orderly (fst (analyze_segment scenario_E file_path start_time
                                    end_time)))
  /\ exists reported,
       progress (snd (analyze_audio_file scenario_E 7 uploaded_world))
       = progress uploaded_world ++ reported
       /\ StronglySorted Z.le (map fst reported)
       /\ Forall (fun p => (10 <= p <= 100)%Z) (map fst reported).
Proof.
  assert (H : forall file_path start_time end_time,
             orderly (fst (analyze_segment scenario_E file_path start_time
                                           end_time))).
  { intros file_path start_time end_time. simpl.
    destruct (Qeq_bool start_time 10); simpl; split;
      repeat constructor; unfold Qle; simpl; lia. }
  split; [exact H|].
  exact (@progress_never_goes_back scenario_E 7 uploaded_world H).
Defined.

(** *** How the job ends *)

Lemma mark_twice file_id s1 s2 (files : list AudioFile) :
  map (fun f => if (id f =? file_id)%Z
                then {| id := id f; file_path := file_path f; status := s2 |}
                else f)
      (map (fun f => if (id f =? file_id)%Z
                     then {| id := id f; file_path := file_path f;
                             status := s1 |}
                     else f) files)
  = map (fun f => if (id f =? file_id)%Z
                  then {| id := id f; file_path := file_path f; status := s2 |}
                  else f) files.
Proof.
  rewrite map_map. apply map_ext. intro f.
  destruct (id f =? file_id)%Z eqn:E; simpl; rewrite E; reflexivity.
Qed.

(** A run of [analyze_audio_file] that returns has completed the job:
    the value returned is the id of the one analysis result it has added
    for the file, the file was in the table and is now marked as
    completed, the change is committed, and the last progress report is
    the one at 100.  It has not touched the row of another file or an
    analysis result that was there.  The statement is about the runs that
    return, whichever of the calls made on the way could have raised. *)
Theorem a_job_that_returns_has_completed
        (an : Analysers) (file_id : Z) (w : World) (returned : Z) :
  fst (analyze_audio_file an file_id w) = Ok returned ->
  completed file_id w returned (snd (analyze_audio_file an file_id w)).
Proof.
  destruct (analyze_audio_file an file_id w) as [r w'] eqn:E. cbn [fst snd].
  intro Hr. subst r.
  unfold analyze_audio_file, try_except, try_block in E.
  unfold bind at 1 in E. unfold query_first at 1 in E.
  destruct (find (fun f => (id f =? file_id)%Z) (audio_files (session w)))
    as [audio_file|] eqn:Hfind.
  - assert (Hexcept : forall e w1,
               except_block file_id e w1 <> (Ok returned, w')).
    { intros e w1 H. apply (f_equal fst) in H. revert H.
      unfold except_block, bind, query_first.
      destruct (find _ (audio_files (session w1)));
        unfold bind, set_status, db_commit, ret, raise; cbn; discriminate. }
    unfold bind, set_status, db_commit, update_state, call in E.
    cbn [session] in E.
    destruct (detect_from_file an (file_path audio_file))
      as [cry_episodes|e].
    2:{ cbv beta iota in E. exfalso. eapply Hexcept. exact E. }
    cbv beta iota in E.
    destruct (librosa_load an (file_path audio_file)) as [y_full|e].
    2:{ cbv beta iota in E. exfalso. eapply Hexcept. exact E. }
    match type of E with
    | context [episode_loop an audio_file y_full ?n ?i ?l ?acc ?w0] =>
        destruct (episode_loop an audio_file y_full n i l acc w0)
          as [[filled|e] w2] eqn:Eloop;
        destruct (@keeps_episode_loop _ _ _ _ _ _ _ _ _ _ Eloop)
          as [Hs Hd]
    end.
    2:{ cbv beta iota in E. exfalso. eapply Hexcept. exact E. }
    cbn [session] in Hs. cbv beta iota in E. unfold db_add, ret in E.
    cbn [fst snd session database] in E.
    injection E as <- <-. unfold completed. cbn [session database progress].
    match goal with
    | |- context [analysis_results (session w2) ++ [?row]] => exists row
    end.
    split; [reflexivity|]. cbn [audio_file_id].
    split; [reflexivity|]. split; [|split; [|split]].
    + rewrite Hs. unfold added, marked. cbn [audio_files analysis_results].
      rewrite mark_twice. reflexivity.
    + reflexivity.
    + unfold status_of. rewrite Hfind. discriminate.
    + eexists. reflexivity.
  - unfold raise, except_block, bind, query_first in E. rewrite Hfind in E.
    discriminate.
Qed.

Lemma a_job_that_returns_has_completed_witness :
  fst (analyze_audio_file scenario_ok 7 uploaded_world) = Ok 1%Z
  /\ completed 7 uploaded_world 1
               (snd (analyze_audio_file scenario_ok 7 uploaded_world)).
Proof.
  assert (H : fst (analyze_audio_file scenario_ok 7 uploaded_world) = Ok 1%Z)
    by (vm_compute; reflexivity).
  split; [exact H|].
  exact (@a_job_that_returns_has_completed scenario_ok 7 uploaded_world 1 H).
Defined.

(** *** The result document *)

Section Document.
Variable an : Analysers.

Lemma analyze_episode_stores audio_file y_full total i episode acc w entry :
  stored an audio_file y_full episode = Some entry ->
  fst (analyze_episode an audio_file y_full total i episode acc w)
  = Ok {| episodes_features :=
            set (episodes_features acc) ("episode_" ++ str i)%string
                (fst (fst entry));
          episodes_statistics :=
            set (episodes_statistics acc) ("episode_" ++ str i)%string
                (snd (fst entry));
          episodes_cry_units :=
            set (episodes_cry_units acc) ("episode_" ++ str i)%string
                (snd entry) |}.
Proof.
  unfold analyze_episode, stored.
  destruct (analyze_segment an _ _ _) as [callbacks features_or_error].
  cbv zeta. unfold bind, call, update_state, ret.
  match goal with
  | |- context [fold_right ?f ?z callbacks w] =>
      assert (Hcb : fst (fold_right f z callbacks w) = Ok tt)
        by (apply (callbacks_return f); intros sm k w0 Hk; apply Hk);
      destruct (fold_right f z callbacks w) as [r w1]
  end.
  simpl in Hcb. subst r. simpl snd.
  destruct features_or_error as [features|e]; [|discriminate].
  destruct (compute_statistics an features); [|discriminate].
  destruct (compute_special_parameters an features); [|discriminate].
  destruct (detect_units_in_episode an y_full _ _) as [cry_units|e];
    [|discriminate].
  destruct (calculate_cry_unit_metrics an cry_units) as [[c u]|e];
    [|discriminate].
  intro H. injection H as <-. reflexivity.
Qed.

Lemma keyed_fresh {V} (values : list V) k j :
  (k + length values <= j)%nat ->
  get (map (fun iv : nat * V =>
              (("episode_" ++ str (fst iv))%string, snd iv))
           (combine (seq k (length values)) values))
      ("episode_" ++ str j)%string = None.
Proof.
  revert k. induction values as [|v values IH]; intros k Hj; simpl;
    [reflexivity|].
  destruct (String.eqb_spec (str k) (str j)) as [Heq | _].
  - apply segment_analysis_facts.str_inj in Heq. simpl in Hj. lia.
  - apply IH. simpl in Hj. lia.
Qed.

Lemma enumerate_snoc {V} (values : list V) (v : V) : forall k,
  combine (seq k (length (values ++ [v]))) (values ++ [v])
  = combine (seq k (length values)) values ++ [((k + length values)%nat, v)].
Proof.
  induction values as [|x values IH]; intro k; simpl.
  - rewrite Nat.add_0_r. reflexivity.
  - rewrite IH. rewrite Nat.add_succ_r. reflexivity.
Qed.

Lemma set_keyed {V} (values : list V) (v : V) n :
  n = length values ->
  set (keyed_by_episode values) ("episode_" ++ str n)%string v
  = keyed_by_episode (values ++ [v]).
Proof.
  intros ->. unfold keyed_by_episode, enumerate.
  rewrite segment_analysis_facts.set_fresh
    by (apply keyed_fresh; lia).
  rewrite enumerate_snoc, map_app. reflexivity.
Qed.

Lemma episode_loop_stores audio_file y_full total episodes entries :
  Forall2 (fun episode entry =>
             stored an audio_file y_full episode = Some entry)
          episodes entries ->
  forall done w,
    fst (episode_loop an audio_file y_full total (length done) episodes
           {| episodes_features :=
                keyed_by_episode (map (fun e => fst (fst e)) done);
              episodes_statistics :=
                keyed_by_episode (map (fun e => snd (fst e)) done);
              episodes_cry_units :=
                keyed_by_episode (map (fun e => snd e) done) |} w)
    = Ok {| episodes_features :=
              keyed_by_episode (map (fun e => fst (fst e)) (done ++ entries));
            episodes_statistics :=
              keyed_by_episode (map (fun e => snd (fst e)) (done ++ entries));
            episodes_cry_units :=
              keyed_by_episode (map (fun e => snd e) (done ++ entries)) |}.
Proof.
  induction 1 as [|episode entry episodes entries Hep _ IH]; intros done w.
  - simpl. rewrite app_nil_r. reflexivity.
  - cbn [episode_loop]. unfold bind at 1.
    pose proof (@analyze_episode_stores audio_file y_full total (length done)
                  episode
                  {| episodes_features :=
                       keyed_by_episode (map (fun e => fst (fst e)) done);
                     episodes_statistics :=
                       keyed_by_episode (map (fun e => snd (fst e)) done);
                     episodes_cry_units :=
                       keyed_by_episode (map (fun e => snd e) done) |}
                  w entry Hep) as H.
    destruct (analyze_episode _ _ _ _ _ _ _ w) as [r w1]. cbn [fst] in H.
    subst r. cbn [episodes_features episodes_statistics episodes_cry_units].
    rewrite !set_keyed by (symmetry; apply length_map).
    specialize (IH (done ++ [entry]) w1).
    rewrite length_app in IH. simpl length in IH.
    rewrite Nat.add_1_r in IH. rewrite <- !app_assoc in IH.
    rewrite !map_app in IH. rewrite !map_app. cbn [map app] in IH.
    cbn [map]. exact IH.
Qed.

End Document.

(** When the file is in the table and none of the calls raises, the
    analysis result that [analyze_audio_file] adds holds, besides the
    detected episodes, three dicts with exactly one entry per episode,
    keyed [episode_0], [episode_1], ... in the order of the episodes: the
    frames of the episode, its statistics and its cry units, as the five
    calls made for that episode returned them. *)
Theorem one_entry_per_episode
        (an : Analysers) (file_id : Z) (w : World) (audio_file : AudioFile)
        (episodes : list cry_detector.CryEpisode) (y_full : list Q)
        (entries : list (list acoustic_analyzer.AcousticFeatures
                         * EpisodeStatistics * EpisodeCryUnits)) :
  find (fun f => (id f =? file_id)%Z) (audio_files (session w))
  = Some audio_file ->
  detect_from_file an (file_path audio_file) = Ok episodes ->
  librosa_load an (file_path audio_file) = Ok y_full ->
  Forall2 (fun episode entry =>
             stored an audio_file y_full episode = Some entry)
          episodes entries ->
  exists row,
    fst (analyze_audio_file an file_id w) = Ok (result_id row)
    /\ In row (analysis_results
                 (database (snd (analyze_audio_file an file_id w))))
    /\ audio_file_id row = file_id
    /\ result_data row = result_document episodes entries.
Proof.
  intros Hfind Hdetect Hload Hstored.
  unfold analyze_audio_file, try_except, try_block, bind, query_first.
  rewrite Hfind. simpl. unfold call. rewrite Hdetect. simpl. rewrite Hload.
  match goal with
  | |- context [episode_loop an audio_file y_full ?n ?i ?l ?acc ?w0] =>
      assert (Hret :
                fst (episode_loop an audio_file y_full n i l acc w0)
                = Ok {| episodes_features :=
                          keyed_by_episode
                            (map (fun e => fst (fst e)) entries);
                        episodes_statistics :=
                          keyed_by_episode
                            (map (fun e => snd (fst e)) entries);
                        episodes_cry_units :=
                          keyed_by_episode (map (fun e => snd e) entries) |})
        by exact (@episode_loop_stores an audio_file y_full n l entries
                    Hstored [] w0);
      destruct (episode_loop an audio_file y_full n i l acc w0)
        as [r w1] eqn:Eloop
  end.
  cbn [fst] in Hret. subst r. simpl.
  match goal with
  | |- context [analysis_results (session w1) ++ [?row]] => exists row
  end.
  split; [reflexivity|]. split; [|split; reflexivity].
  apply in_or_app. right. left. reflexivity.
Qed.

Lemma one_entry_per_episode_witness :
  exists row,
    fst (analyze_audio_file scenario_ok 7 uploaded_world)
    = Ok (result_id row)
    /\ map fst (acoustic_features (result_data row))
       = ["episode_0"; "episode_1"]%string.
Proof.
  destruct (stored scenario_ok uploaded_file [] (episode_at 0 2))
    as [entry0|] eqn:E0; [|vm_compute in E0; discriminate].
  destruct (stored scenario_ok uploaded_file [] (episode_at 20 22))
    as [entry1|] eqn:E1; [|vm_compute in E1; discriminate].
  destruct (@one_entry_per_episode scenario_ok 7 uploaded_world
              uploaded_file [episode_at 0 2; episode_at 20 22] []
              [entry0; entry1] eq_refl eq_refl eq_refl)
    as (row & Hret & _ & _ & Hdata).
  - constructor; [exact E0|]. constructor; [exact E1|]. constructor.
  - exists row. split; [exact Hret|]. rewrite Hdata. reflexivity.
Defined.

End analysis_tasks_more.
